(** * go-github-oauth-device-flow-example: the device flow of [main.go]

    A shallow embedding of [main.go] (OAuth 2.0 device authorization grant
    against GitHub) and the properties of its polling loop.

    - Go's [int] and [time.Duration] are 64-bit signed integers: they are
      modelled as [Z] with the wrap-around of [+] and [*] written out
      ([wrap64]).  [int] is taken to be 64 bits wide (amd64, arm64).
    - [time.Time] is an instant in nanoseconds, an unbounded [Z]: a
      [Time] counts seconds in an [int64] of its own and gives up its
      monotonic reading when adding to it would overflow, so adding a
      [Duration] to an instant does not wrap.
    - [net/http] and the syntax of JSON are outside the program.  A
      response body is modelled by what [encoding/json] sees in it: a
      syntax error, or a JSON value.  [json.Unmarshal] is modelled on that
      value, for the flat structs of [main.go].
    - The effects of the program (sleeping, reading the clock, posting a
      form, printing) are threaded through a state monad over [World], which
      holds the clock and the chronological trace of the effects.  The
      outside ([Env]) decides what the server answers and how long every
      effect takes. *)

From Stdlib Require Import ZArith List String Ascii Bool Lia Sorted.
Import ListNotations.
Open Scope string_scope.
Open Scope list_scope.
Open Scope Z_scope.
Set Warnings "-register-all".

(** ** Machine integers, durations and instants *)

Definition min_int64 : Z := - 2 ^ 63.
Definition max_int64 : Z := 2 ^ 63 - 1.

(** The value a 64-bit signed variable holds after an operation whose exact
    result is [z]. *)
Definition wrap64 (z : Z) : Z := (z + 2 ^ 63) mod 2 ^ 64 - 2 ^ 63.

Definition in_int64 (z : Z) : bool := (min_int64 <=? z) && (z <=? max_int64).

Definition add64 (a b : Z) : Z := wrap64 (a + b).
Definition mul64 (a b : Z) : Z := wrap64 (a * b).

(** [time.Duration]: nanoseconds in an [int64]. *)
Definition Duration := Z.
(** [time.Second] *)
Definition Second : Duration := 1000000000.

(** [time.Time]: an instant, in nanoseconds. *)
Definition Time := Z.
(** [t.Add(d)] *)
Definition Add (t : Time) (d : Duration) : Time := t + d.
(** [t.After(u)] *)
Definition After (t u : Time) : bool := u <? t.

(** ** Errors *)

(** The values of Go's [error] the program can see.  [errors.New] and
    [fmt.Errorf] (without [%w]) both build an [*errors.errorString]: such
    errors differ by their message only. *)
Inductive error : Type :=
| TransportError (msg : string)
    (* from http.NewRequest, client.Do or ioutil.ReadAll *)
| SyntaxError
    (* *json.SyntaxError: the body is not JSON *)
| UnmarshalTypeError (Value Field : string)
    (* *json.UnmarshalTypeError: a JSON value does not fit the Go type *)
| errorString (msg : string).
    (* errors.New, fmt.Errorf *)

(** ** The constants of main.go *)

Definition oauthClientId : string := "".
Definition deviceCodeUrl : string := "https://github.com/login/device/code".
Definition accessTokenUrl : string := "https://github.com/login/oauth/access_token".
Definition scope : string := "".
Definition grantType : string := "urn:ietf:params:oauth:grant-type:device_code".

(** ** encoding/json, as far as main.go uses it *)

Module json.

(** A number literal: written as a plain integer ([-?digits], any size),
    or with a fraction or an exponent. *)
Inductive number : Type :=
| Integer (z : Z)
| Fractional.

Inductive value : Type :=
| Null
| Bool (b : bool)
| Number (n : number)
| String (s : string)
| Array (items : list value)
| Object (members : list (string * value)).

(** What [post] read from the response: bytes that are not JSON, or the
    JSON value they spell. *)
Inductive Body : Type :=
| Invalid
| Doc (v : value).

(** The name [UnmarshalTypeError.Value] gives to a JSON value.  For a
    number that does not fit an integer field encoding/json writes the literal
    after it ([number 1.5]); the literal is not kept here, so the name is all
    the error carries: the text of that error differs, nothing else. *)
Definition kind (v : value) : string :=
  match v with
  | Null => "null"
  | Bool _ => "bool"
  | Number _ => "number"
  | String _ => "string"
  | Array _ => "array"
  | Object _ => "object"
  end.

Definition toLower (c : ascii) : ascii :=
  let n := nat_of_ascii c in
  if (Nat.leb 65 n && Nat.leb n 90)%bool then ascii_of_nat (n + 32) else c.

(** Keys are matched with struct fields up to Unicode simple case folding.
    For the ASCII field names of main.go that is: ASCII letters without
    case, the Kelvin sign U+212A (bytes E2 84 AA) as [k] and the long s
    U+017F (bytes C5 BF) as [s]. *)
Fixpoint foldName (s : string) : string :=
  match s with
  | EmptyString => EmptyString
  | String.String c r =>
    match r with
    | String.String c1 r1 =>
      if (Ascii.eqb c "197" && Ascii.eqb c1 "191")%bool
      then String.String "s" (foldName r1)
      else
        match r1 with
        | String.String c2 r2 =>
          if (Ascii.eqb c "226" && Ascii.eqb c1 "132" && Ascii.eqb c2 "170")%bool
          then String.String "k" (foldName r2)
          else String.String (toLower c) (foldName r)
        | EmptyString => String.String (toLower c) (foldName r)
        end
    | EmptyString => String.String (toLower c) EmptyString
    end
  end.

(** A field of a struct of type [T]: its [json:] tag and how a JSON value
    is stored in it ([None]: the value does not fit the field's Go type). *)
Record field (T : Type) : Type := mkField {
  tag : string;
  store : value -> T -> option T
}.
Arguments mkField {T} _ _.
Arguments tag {T} _.
Arguments store {T} _ _ _.

(** A field of Go type [string]: a JSON string is stored, [null] leaves
    the field as it is, anything else is a type error. *)
Definition stringField {T} (name : string) (set : string -> T -> T) : field T :=
  mkField name (fun item v =>
    match item with
    | String s => Some (set s v)
    | Null => Some v
    | _ => None
    end).

(** A field of Go type [int]: an integer literal in range is stored,
    [null] leaves the field as it is, anything else is a type error. *)
Definition intField {T} (name : string) (set : Z -> T -> T) : field T :=
  mkField name (fun item v =>
    match item with
    | Number (Integer z) => if in_int64 z then Some (set z v) else None
    | Null => Some v
    | _ => None
    end).

(** The decoder keeps the first error and goes on. *)
Definition saveError (saved : option error) (e : error) : option error :=
  match saved with
  | Some _ => saved
  | None => Some e
  end.

(** Decoding the members of a JSON object into a struct, in the order
    they are written: a later duplicate overwrites, unknown keys are
    skipped. *)
Fixpoint object {T} (fields : list (field T)) (members : list (string * value))
    (v : T) (saved : option error) : T * option error :=
  match members with
  | [] => (v, saved)
  | (key, item) :: rest =>
    match find (fun f => String.eqb (tag f) (foldName key)) fields with
    | None => object fields rest v saved
    | Some f =>
      match store f item v with
      | Some v' => object fields rest v' saved
      | None =>
        object fields rest v (saveError saved (UnmarshalTypeError (kind item) (tag f)))
      end
    end
  end.

(** [json.Unmarshal(body, v)] for [v] a pointer to a struct with the given
    fields: the struct after the call, and the error returned. *)
Definition Unmarshal {T} (fields : list (field T)) (body : Body) (v : T)
    : T * option error :=
  match body with
  | Invalid => (v, Some SyntaxError)
  | Doc Null => (v, None)
  | Doc (Object members) => object fields members v None
  | Doc item => (v, Some (UnmarshalTypeError (kind item) ""))
  end.

End json.

(** ** The structs of main.go *)

Record deviceCodeResponse : Type := mkDeviceCodeResponse {
  DeviceCode : string;
  ExpiresIn : Z;
  Interval : Z;
  UserCode : string;
  VerificationURI : string
}.

Record accessTokenResponse : Type := mkAccessTokenResponse {
  AccessToken : string;
  TokenType : string;
  Scope : string
}.

Record accessTokenErrorResponse : Type := mkAccessTokenErrorResponse {
  Error : string;
  ErrorDescription : string;
  ErrorUri : string
}.

(** [&deviceCodeResponse{}] and the like: every field at its zero value. *)
Definition zeroDeviceCodeResponse : deviceCodeResponse :=
  mkDeviceCodeResponse "" 0 0 "" "".
Definition zeroAccessTokenResponse : accessTokenResponse :=
  mkAccessTokenResponse "" "" "".
Definition zeroAccessTokenErrorResponse : accessTokenErrorResponse :=
  mkAccessTokenErrorResponse "" "" "".

Definition deviceCodeFields : list (json.field deviceCodeResponse) :=
  [ json.stringField "device_code"
      (fun s r => mkDeviceCodeResponse s (ExpiresIn r) (Interval r) (UserCode r) (VerificationURI r));
    json.intField "expires_in"
      (fun z r => mkDeviceCodeResponse (DeviceCode r) z (Interval r) (UserCode r) (VerificationURI r));
    json.intField "interval"
      (fun z r => mkDeviceCodeResponse (DeviceCode r) (ExpiresIn r) z (UserCode r) (VerificationURI r));
    json.stringField "user_code"
      (fun s r => mkDeviceCodeResponse (DeviceCode r) (ExpiresIn r) (Interval r) s (VerificationURI r));
    json.stringField "verification_uri"
      (fun s r => mkDeviceCodeResponse (DeviceCode r) (ExpiresIn r) (Interval r) (UserCode r) s) ].

Definition accessTokenFields : list (json.field accessTokenResponse) :=
  [ json.stringField "access_token"
      (fun s r => mkAccessTokenResponse s (TokenType r) (Scope r));
    json.stringField "token_type"
      (fun s r => mkAccessTokenResponse (AccessToken r) s (Scope r));
    json.stringField "scope"
      (fun s r => mkAccessTokenResponse (AccessToken r) (TokenType r) s) ].

Definition accessTokenErrorFields : list (json.field accessTokenErrorResponse) :=
  [ json.stringField "error"
      (fun s r => mkAccessTokenErrorResponse s (ErrorDescription r) (ErrorUri r));
    json.stringField "error_description"
      (fun s r => mkAccessTokenErrorResponse (Error r) s (ErrorUri r));
    json.stringField "error_uri"
      (fun s r => mkAccessTokenErrorResponse (Error r) (ErrorDescription r) s) ].

(** ** The world the program runs in *)

(** A form posted to a URL ([url.Values], in the order of the [Add]s). *)
Record Request : Type := mkRequest {
  url : string;
  form : list (string * string)
}.

(** The effects of the program, as they show from outside. *)
Inductive Event : Type :=
| EvSleep (d : Duration)              (* time.Sleep(d) *)
| EvNow (t : Time)                    (* time.Now(), which read t *)
| EvPost (req : Request) (t : Time)   (* a POST, sent at t *)
| EvPrint (text : string).            (* fmt.Printf, fmt.Println *)

(** What the program does not decide: the answer to the [n]-th POST (a
    transport error or a body) and the time the [i]-th effect takes on top
    of what the program asked for (oversleeping, the round trip of a
    request, writing to the terminal). *)
Record Env : Type := mkEnv {
  serve : nat -> Request -> error + json.Body;
  lag : nat -> N
}.

(** The clock and the effects so far, oldest first.  The clock moves
    inside [time.Sleep], [post] and the printing calls only. *)
Record World : Type := mkWorld {
  clock : Time;
  trace : list Event
}.

Definition isPost (e : Event) : bool :=
  match e with
  | EvPost _ _ => true
  | _ => false
  end.

(** The number of POSTs in a trace. *)
Definition requests (evs : list Event) : nat := List.length (filter isPost evs).

Definition M (A : Type) : Type := World -> A * World.

Definition ret {A} (a : A) : M A := fun w => (a, w).

Definition bind {A B} (m : M A) (k : A -> M B) : M B :=
  fun w => let (a, w') := m w in k a w'.

Notation "x <- m ;; k" := (bind m (fun x => k))
  (at level 61, m at next level, right associativity).
Notation "m ;;; k" := (bind m (fun _ => k))
  (at level 61, right associativity).

(** The variables the loop of [pollAccessToken] works on: its parameters
    [interval], which the loop assigns to, and [expiresAt]. *)
Record PollState : Type := mkPollState {
  interval : Duration;
  expiresAt : Time
}.

(** The outcome of one pass through the body of the loop. *)
Inductive Step : Type :=
| Continue (st : PollState)
    (* continue: back to the top of the loop *)
| Return (acResp : option accessTokenResponse) (err : option error).
    (* return acResp, err *)

(** A loop run for a bounded number of passes: it returned, or it is still
    running, at the top of the loop with this state. *)
Inductive Run : Type :=
| Finished (acResp : option accessTokenResponse) (err : option error)
| Running (st : PollState).

(** How [run] ends, when it does: it returns an error (or nil), or it
    panics on a nil pointer. *)
Inductive Outcome : Type :=
| Returned (err : option error)
| Panicked.

Section Program.

Variable env : Env.

(** An effect that takes [dt] of the program's own asking, plus what the
    outside adds. *)
Definition effect (e : Event) (dt : Z) : M unit :=
  fun w =>
    (tt, mkWorld (clock w + dt + Z.of_N (lag env (List.length (trace w))))
                 (trace w ++ [e])).

(** [time.Sleep(d)]: at least [d]; returns at once when [d <= 0]. *)
Definition Sleep (d : Duration) : M unit := effect (EvSleep d) (Z.max 0 d).

(** [time.Now()] *)
Definition Now : M Time :=
  fun w => (clock w, mkWorld (clock w) (trace w ++ [EvNow (clock w)])).

(** [fmt.Printf], [fmt.Println] *)
Definition Print (text : string) : M unit := effect (EvPrint text) 0.

(** [post(url, params)]: the body of the response, or an error. *)
Definition post (u : string) (params : list (string * string))
    : M (error + json.Body) :=
  fun w =>
    let req := mkRequest u params in
    let (_, w') := effect (EvPost req (clock w)) 0 w in
    (serve env (requests (trace w)) req, w').

Definition postDeviceCode : M (option deviceCodeResponse * option error) :=
  let values := [("client_id", oauthClientId); ("scope", scope)] in
  r <- post deviceCodeUrl values ;;
  match r with
  | inl err => ret (None, Some err)
  | inr body =>
    let (res, err) := json.Unmarshal deviceCodeFields body zeroDeviceCodeResponse in
    match err with
    | Some e => ret (None, Some e)
    | None => ret (Some res, None)
    end
  end.

(** The part of [postAccessToken] after [post] returned a body. *)
Definition decodeAccessToken (body : json.Body)
    : option accessTokenResponse * option accessTokenErrorResponse * option error :=
  let (res, err) := json.Unmarshal accessTokenFields body zeroAccessTokenResponse in
  if (match err with None => true | Some _ => false end
      && negb (String.eqb (AccessToken res) ""))%bool
  then (Some res, None, None)
  else
    let (errRes, err) :=
      json.Unmarshal accessTokenErrorFields body zeroAccessTokenErrorResponse in
    if (match err with None => true | Some _ => false end
        && negb (String.eqb (Error errRes) ""))%bool
    then (None, Some errRes, None)
    else (None, None, err).

Definition postAccessToken (deviceCode : string)
    : M (option accessTokenResponse * option accessTokenErrorResponse * option error) :=
  let values :=
    [("client_id", oauthClientId); ("device_code", deviceCode); ("grant_type", grantType)] in
  r <- post accessTokenUrl values ;;
  match r with
  | inl err => ret (None, None, Some err)
  | inr body => ret (decodeAccessToken body)
  end.

(** [errors.New("code is already expired")] *)
Definition errExpired : error := errorString "code is already expired".

(** [fmt.Errorf("%s %s %s", e.Error, e.ErrorDescription, e.ErrorUri)] *)
Definition errAuthorization (e : accessTokenErrorResponse) : error :=
  errorString (Error e ++ " " ++ ErrorDescription e ++ " " ++ ErrorUri e)%string.

(** The body of the [for] loop of [pollAccessToken]. *)
Definition pollOnce (deviceCode : string) (st : PollState) : M Step :=
  Sleep (interval st) ;;;
  now <- Now ;;
  if After now (expiresAt st)
  then ret (Return None (Some errExpired))
  else
    r <- postAccessToken deviceCode ;;
    let '(acResp, acErrResp, err) := r in
    match err with
    | Some e => ret (Return None (Some e))
    | None =>
      match acErrResp with
      | Some e =>
        if String.eqb (Error e) "authorization_pending"
        then ret (Continue st)
        else if String.eqb (Error e) "slow_down"
        then ret (Continue (mkPollState (mul64 (interval st) 2) (expiresAt st)))
        else if negb (String.eqb (Error e) "")
        then ret (Return None (Some (errAuthorization e)))
        else ret (Return acResp None)
      | None => ret (Return acResp None)
      end
    end.

(** The loop, for at most [fuel] passes. *)
Fixpoint pollLoop (fuel : nat) (deviceCode : string) (st : PollState) : M Run :=
  match fuel with
  | O => ret (Running st)
  | S fuel' =>
    s <- pollOnce deviceCode st ;;
    match s with
    | Continue st' => pollLoop fuel' deviceCode st'
    | Return acResp err => ret (Finished acResp err)
    end
  end.

Definition pollAccessToken (fuel : nat) (deviceCode : string)
    (interval : Duration) (expiresAt : Time) : M Run :=
  pollLoop fuel deviceCode (mkPollState interval expiresAt).

Definition newline : string := String.String "010" EmptyString.

(** The end of [run], once [pollAccessToken] has returned. *)
Definition reportToken (p : Run) : M (option Outcome) :=
  match p with
  | Running _ => ret None
  | Finished _ (Some e) => ret (Some (Returned (Some e)))
  | Finished None None => ret (Some Panicked)
      (* acResp.AccessToken on a nil acResp *)
  | Finished (Some acResp) None =>
    Print ("access token: " ++ AccessToken acResp ++ newline)%string ;;;
    ret (Some (Returned None))
  end.

(** [run]: [None] when the polling loop is still running after [fuel]
    passes. *)
Definition run (fuel : nat) : M (option Outcome) :=
  deviceCodeRequestTime <- Now ;;
  r <- postDeviceCode ;;
  let (dcResp, err) := r in
  match err with
  | Some e => ret (Some (Returned (Some e)))
  | None =>
    match dcResp with
    | None => ret (Some Panicked)
    | Some dc =>
      Print ("Open " ++ VerificationURI dc ++ " in your browser and enter this code:" ++ newline)%string ;;;
      Print (UserCode dc ++ newline)%string ;;;
      let interval := mul64 (add64 (Interval dc) 1) Second in
      let expiresAt := Add deviceCodeRequestTime (mul64 (ExpiresIn dc) Second) in
      p <- pollAccessToken fuel (DeviceCode dc) interval expiresAt ;;
      reportToken p
    end
  end.

End Program.

(** ** Reading a run *)

(** The form [postAccessToken] posts. *)
Definition tokenRequest (deviceCode : string) : Request :=
  mkRequest accessTokenUrl
    [("client_id", oauthClientId); ("device_code", deviceCode); ("grant_type", grantType)].

(** The form [postDeviceCode] posts. *)
Definition deviceCodeRequest : Request :=
  mkRequest deviceCodeUrl [("client_id", oauthClientId); ("scope", scope)].

(** The effects that happened between two worlds of one run. *)
Definition eventsSince (w w' : World) : list Event :=
  skipn (List.length (trace w)) (trace w').

(** Every reading of the clock in these events was within the deadline. *)
Definition withinDeadline (deadline : Time) (evs : list Event) : bool :=
  forallb (fun e => match e with EvNow t => t <=? deadline | _ => true end) evs.

(** The durations slept, in order. *)
Fixpoint sleeps (evs : list Event) : list Duration :=
  match evs with
  | [] => []
  | EvSleep d :: rest => d :: sleeps rest
  | _ :: rest => sleeps rest
  end.

(** What [postAccessToken] makes of the answer to a POST. *)
Definition tokenAnswer (r : error + json.Body)
    : option accessTokenResponse * option accessTokenErrorResponse * option error :=
  match r with
  | inl err => (None, None, Some err)
  | inr body => decodeAccessToken body
  end.

(** The [n]-th POST is answered by an error payload with this code. *)
Definition answersError (env : Env) (n : nat) (code : string) : Prop :=
  forall req, exists e,
    tokenAnswer (serve env n req) = (None, Some e, None) /\ Error e = code.

(** The [n]-th POST is answered by this success payload. *)
Definition answersToken (env : Env) (n : nat) (res : accessTokenResponse) : Prop :=
  forall req, tokenAnswer (serve env n req) = (Some res, None, None).

(** The instant [time.Sleep(d)] returns at. *)
Definition wakeUp (env : Env) (d : Duration) (w : World) : Time :=
  clock w + Z.max 0 d + Z.of_N (lag env (List.length (trace w))).

(** What the loop does with the three results of [postAccessToken]. *)
Definition dispatch (st : PollState)
    (r : option accessTokenResponse * option accessTokenErrorResponse * option error)
    : Step :=
  let '(acResp, acErrResp, err) := r in
  match err with
  | Some e => Return None (Some e)
  | None =>
    match acErrResp with
    | Some e =>
      if String.eqb (Error e) "authorization_pending" then Continue st
      else if String.eqb (Error e) "slow_down"
      then Continue (mkPollState (mul64 (interval st) 2) (expiresAt st))
      else if negb (String.eqb (Error e) "") then Return None (Some (errAuthorization e))
      else Return acResp None
    | None => Return acResp None
    end
  end.

(** The world after a pass that posted. *)
Definition passed (env : Env) (deviceCode : string) (st : PollState) (w : World) : World :=
  let t := wakeUp env (interval st) w in
  mkWorld (t + Z.of_N (lag env (List.length (trace w) + 2)))
          (trace w ++ [EvSleep (interval st); EvNow t; EvPost (tokenRequest deviceCode) t]).

(** The shape of the effects of the loop: passes of sleep, clock, POST with
    the clock within the deadline, and possibly a last pass of sleep and a
    clock past the deadline (the flag). *)
Inductive PollTrace (deadline : Time) : bool -> list Event -> Prop :=
| PollTrace_nil : PollTrace deadline false []
| PollTrace_expired d t :
    deadline < t -> PollTrace deadline true [EvSleep d; EvNow t]
| PollTrace_request d t req late rest :
    t <= deadline -> PollTrace deadline late rest ->
    PollTrace deadline late (EvSleep d :: EvNow t :: EvPost req t :: rest).

(** ** Bodies and servers for concrete runs *)

(** A JSON object whose members are all strings. *)
Definition stringObject (members : list (string * string)) : json.Body :=
  json.Doc (json.Object (map (fun m => (fst m, json.String (snd m))) members)).

(** [{"error": code}] *)
Definition errorBody (code : string) : json.Body := stringObject [("error", code)].

(** [{"access_token": "tok123", "token_type": "bearer", "scope": ""}] *)
Definition tokenBody : json.Body :=
  stringObject [("access_token", "tok123"); ("token_type", "bearer"); ("scope", "")].

(** The device-code body of GitHub's documentation, with the given
    [expires_in] and [interval]. *)
Definition deviceCodeBody (expires_in interval : Z) : json.Body :=
  json.Doc (json.Object
    [("device_code", json.String "D");
     ("user_code", json.String "ABCD-1234");
     ("verification_uri", json.String "https://x/device");
     ("expires_in", json.Number (json.Integer expires_in));
     ("interval", json.Number (json.Integer interval))]).

(** A server that answers the POSTs with these bodies, in order, then with
    [last] for ever; every effect takes [each] on top of what was asked. *)
Definition scripted (bodies : list json.Body) (last : json.Body) (each : N) : Env :=
  mkEnv (fun n _ => inr (nth n bodies last)) (fun _ => each).

(** A member of a JSON object named like a field of the error payload. *)
Definition errorShaped (m : string * json.value) : bool :=
  let key := json.foldName (fst m) in
  (String.eqb key "error" || String.eqb key "error_description"
   || String.eqb key "error_uri")%bool.

(** Some member of the object is matched with the field of this tag. *)
Definition mentions (name : string) (members : list (string * json.value)) : bool :=
  existsb (fun m => String.eqb name (json.foldName (fst m))) members.

(** The member is matched with no field, or its value fits the Go type of
    the field it is matched with. *)
Definition fits {T} (fields : list (json.field T)) (zero : T)
    (m : string * json.value) : bool :=
  match find (fun f => String.eqb (json.tag f) (json.foldName (fst m))) fields with
  | None => true
  | Some f =>
    match json.store f (snd m) zero with
    | Some _ => true
    | None => false
    end
  end.

(** A fresh world, at instant 0. *)
Definition genesis : World := mkWorld 0 [].

(** ** The process *)

(** How the process ends: [main] returns, or it panics, with the error of
    [run] or on the nil pointer [run] dereferenced. *)
Inductive Exit : Type :=
| Exited
| PanicError (err : error)
| PanicNil.

(** [main]: [None] when the polling loop is still running after [fuel]
    passes. *)
Definition main (env : Env) (fuel : nat) : M (option Exit) :=
  r <- run env fuel ;;
  match r with
  | None => ret None
  | Some (Returned None) => ret (Some Exited)
  | Some (Returned (Some err)) => ret (Some (PanicError err))
  | Some Panicked => ret (Some PanicNil)
  end.

(** The POSTs of a trace, in order. *)
Definition posts (evs : list Event) : list Event := filter isPost evs.

(** The number of [slow_down] among these error codes. *)
Definition slowDowns (codes : list string) : nat :=
  List.length (filter (fun c => String.eqb c "slow_down") codes).

(** The world after the first two effects of [run]: the clock read, the
    device code asked for. *)
Definition asked (env : Env) (w : World) : World :=
  mkWorld (clock w + 0 + Z.of_N (lag env (List.length (trace w ++ [EvNow (clock w)]))))
          (trace w ++ [EvNow (clock w); EvPost deviceCodeRequest (clock w)]).

(** ** The states of the loop *)

(** The variables of the loop at the top of every pass of a run of at most
    [fuel] passes, the first pass first: the state the loop starts in, and
    the state every [continue] leaves. *)
Fixpoint loopStates (env : Env) (fuel : nat) (deviceCode : string)
    (st : PollState) (w : World) : list PollState :=
  match fuel with
  | O => [st]
  | S fuel' =>
    st :: match pollOnce env deviceCode st w with
          | (Continue st', w') => loopStates env fuel' deviceCode st' w'
          | (Return _ _, _) => []
          end
  end.

(** From every state to the next, the interval was left as it was or its
    double fits an [int64]. *)
Fixpoint doublingsFit (states : list PollState) : bool :=
  match states with
  | st :: ((st' :: _) as rest) =>
    ((interval st' =? interval st) || (interval st * 2 <=? max_int64))
    && doublingsFit rest
  | _ => true
  end.

(** ** Arithmetic of [wrap64] *)

Lemma wrap64_small (z : Z) : min_int64 <= z <= max_int64 -> wrap64 z = z.
Proof.
  unfold wrap64, min_int64, max_int64. intros H.
  rewrite Z.mod_small; lia.
Qed.

Lemma wrap64_range (z : Z) : min_int64 <= wrap64 z <= max_int64.
Proof.
  unfold wrap64, min_int64, max_int64.
  pose proof (Z.mod_pos_bound (z + 2 ^ 63) (2 ^ 64)). lia.
Qed.

Lemma wrap64_mul_l (a b : Z) : wrap64 (wrap64 a * b) = wrap64 (a * b).
Proof.
  unfold wrap64. f_equal.
  replace ((a + 2 ^ 63) mod 2 ^ 64 - 2 ^ 63) with
    (a + (- ((a + 2 ^ 63) / 2 ^ 64)) * 2 ^ 64).
  - replace ((a + - ((a + 2 ^ 63) / 2 ^ 64) * 2 ^ 64) * b + 2 ^ 63)
      with (a * b + 2 ^ 63 + (- ((a + 2 ^ 63) / 2 ^ 64) * b) * 2 ^ 64) by ring.
    apply Z.mod_add. lia.
  - pose proof (Z.div_mod (a + 2 ^ 63) (2 ^ 64)). lia.
Qed.

Lemma in_int64_spec (z : Z) : in_int64 z = true <-> min_int64 <= z <= max_int64.
Proof. unfold in_int64. rewrite andb_true_iff, !Z.leb_le. tauto. Qed.

(** ** Traces *)

Lemma requests_app (a b : list Event) : requests (a ++ b) = (requests a + requests b)%nat.
Proof. unfold requests. now rewrite filter_app, length_app. Qed.

Lemma eventsSince_app (w w' : World) (evs : list Event) :
  trace w' = trace w ++ evs -> eventsSince w w' = evs.
Proof.
  unfold eventsSince. intros ->.
  rewrite skipn_app, skipn_all, Nat.sub_diag. reflexivity.
Qed.

Lemma withinDeadline_app (x : Time) (a b : list Event) :
  withinDeadline x (a ++ b) = (withinDeadline x a && withinDeadline x b)%bool.
Proof. unfold withinDeadline. apply forallb_app. Qed.

Lemma sleeps_app (a b : list Event) : sleeps (a ++ b) = sleeps a ++ sleeps b.
Proof.
  induction a as [|e a IH]; simpl; [reflexivity|].
  destruct e; simpl; now rewrite IH.
Qed.

(** ** One pass of the loop *)

(** The pass, spelled out: sleep, read the clock, and either give up or
    post once and dispatch on the answer. *)
Lemma pollOnce_eq (env : Env) (deviceCode : string) (st : PollState) (w : World) :
  pollOnce env deviceCode st w =
    let t := wakeUp env (interval st) w in
    if After t (expiresAt st)
    then (Return None (Some errExpired),
          mkWorld t (trace w ++ [EvSleep (interval st); EvNow t]))
    else (dispatch st (tokenAnswer (serve env (requests (trace w)) (tokenRequest deviceCode))),
          mkWorld (t + Z.of_N (lag env (List.length (trace w) + 2)))
                  (trace w ++ [EvSleep (interval st); EvNow t;
                               EvPost (tokenRequest deviceCode) t])).
Proof.
  unfold pollOnce, bind, Sleep, Now, effect, ret, wakeUp. cbn [fst snd clock trace].
  destruct (After _ _) eqn:Hafter.
  - now rewrite <- app_assoc.
  - unfold postAccessToken, bind, post, effect, ret. cbn [fst snd clock trace].
    rewrite !requests_app. cbn [requests filter isPost List.length].
    rewrite !length_app. cbn [List.length].
    rewrite !Nat.add_0_r, <- !app_assoc, Z.add_0_r, <- Nat.add_assoc. cbn [app Nat.add].
    unfold tokenRequest, tokenAnswer, dispatch.
    destruct (serve env _ _) as [e|body]; [reflexivity|].
    destruct (decodeAccessToken body) as [[acResp [e|]] [err|]]; try reflexivity.
    destruct (String.eqb (Error e) "authorization_pending"); [reflexivity|].
    destruct (String.eqb (Error e) "slow_down"); [reflexivity|].
    destruct (negb _); reflexivity.
Qed.

Lemma dispatch_Continue (st st' : PollState) r :
  dispatch st r = Continue st' ->
  expiresAt st' = expiresAt st /\
  (interval st' = interval st \/ interval st' = mul64 (interval st) 2).
Proof.
  unfold dispatch. destruct r as [[acResp [e|]] [err|]]; try discriminate.
  destruct (String.eqb (Error e) "authorization_pending").
  { intros [= <-]. auto. }
  destruct (String.eqb (Error e) "slow_down").
  { intros [= <-]. cbn. auto. }
  destruct (negb _); discriminate.
Qed.

(** ** The loop *)

Lemma pollLoop_S (env : Env) (fuel : nat) (deviceCode : string) (st : PollState) (w : World) :
  pollLoop env (S fuel) deviceCode st w =
    match pollOnce env deviceCode st w with
    | (Continue st', w') => pollLoop env fuel deviceCode st' w'
    | (Return acResp err, w') => (Finished acResp err, w')
    end.
Proof.
  cbn [pollLoop]. unfold bind.
  destruct (pollOnce env deviceCode st w) as [[st'|acResp err] w']; reflexivity.
Qed.

(** Running [a + b] passes is running [a] passes and, when the loop is
    still going, [b] more. *)
Lemma pollLoop_add (env : Env) (a b : nat) (deviceCode : string) (st : PollState) (w : World) :
  pollLoop env (a + b) deviceCode st w =
    match pollLoop env a deviceCode st w with
    | (Running st', w') => pollLoop env b deviceCode st' w'
    | (Finished acResp err, w') => (Finished acResp err, w')
    end.
Proof.
  revert st w. induction a as [|a IH]; intros st w.
  - reflexivity.
  - cbn [Nat.add]. rewrite !pollLoop_S.
    destruct (pollOnce env deviceCode st w) as [[st'|acResp err] w'].
    + apply IH.
    + reflexivity.
Qed.

Lemma pollLoop_trace (env : Env) (fuel : nat) (deviceCode : string) (st : PollState) (w : World) :
  exists evs late,
    trace (snd (pollLoop env fuel deviceCode st w)) = trace w ++ evs /\
    PollTrace (expiresAt st) late evs /\
    (late = true ->
     fst (pollLoop env fuel deviceCode st w) = Finished None (Some errExpired)).
Proof.
  revert st w. induction fuel as [|fuel IH]; intros st w.
  - exists [], false. cbn. rewrite app_nil_r. repeat split; [constructor | discriminate].
  - rewrite pollLoop_S, pollOnce_eq. cbv zeta.
    destruct (After _ _) eqn:Hafter; unfold After in Hafter.
    + apply Z.ltb_lt in Hafter.
      eexists _, true. cbn [fst snd trace]. repeat split. now constructor.
    + apply Z.ltb_ge in Hafter.
      destruct (dispatch st _) as [st'|acResp err] eqn:Hd.
      * apply dispatch_Continue in Hd as [Hx _].
        match goal with |- context [pollLoop env fuel deviceCode st' ?w1] =>
          destruct (IH st' w1) as (evs & late & Htr & Hshape & Hlate) end.
        cbn [trace] in Htr. rewrite Hx in Hshape.
        eexists _, late. rewrite Htr, <- app_assoc. cbn [app].
        repeat split; [|exact Hlate]. now constructor.
      * eexists _, false. cbn [fst snd trace].
        repeat split; [|discriminate]. constructor; [assumption|constructor].
Qed.

Lemma PollTrace_post (x : Time) (late : bool) (evs : list Event) :
  PollTrace x late evs ->
  forall pre req t post, evs = pre ++ EvPost req t :: post ->
    t <= x /\ exists pre', pre = pre' ++ [EvNow t].
Proof.
  induction 1 as [|d t Hlt|d t req late rest Hle Hrest IH]; intros pre req' t' post Heq.
  - destruct pre; discriminate.
  - destruct pre as [|e1 [|e2 [|e3 pre]]]; discriminate.
  - destruct pre as [|e1 [|e2 [|e3 pre]]]; try discriminate.
    + inversion Heq; subst.
      split; [assumption|]. now exists [EvSleep d].
    + cbn [app] in Heq. injection Heq as <- <- <- Heq.
      destruct (IH _ _ _ _ Heq) as [Ht [pre' ->]].
      split; [assumption|]. now exists (EvSleep d :: EvNow t :: EvPost req t :: pre').
Qed.

Lemma PollTrace_now (x : Time) (late : bool) (evs : list Event) :
  PollTrace x late evs ->
  forall pre t post, evs = pre ++ EvNow t :: post ->
    (exists pre' d, pre = pre' ++ [EvSleep d]) /\
    (x < t -> post = [] /\ late = true).
Proof.
  induction 1 as [|d t Hlt|d t req late rest Hle Hrest IH]; intros pre t' post Heq.
  - destruct pre; discriminate.
  - destruct pre as [|e1 [|e2 [|e3 pre]]]; try discriminate.
    inversion Heq; subst. split; [now exists [], d | auto].
  - destruct pre as [|e1 [|e2 [|e3 pre]]]; try discriminate.
    + inversion Heq; subst. split; [now exists [], d | lia].
    + cbn [app] in Heq. injection Heq as <- <- <- Heq.
      destruct (IH _ _ _ Heq) as [(pre' & d' & ->) Hpost].
      split; [|exact Hpost].
      now exists (EvSleep d :: EvNow t :: EvPost req t :: pre'), d'.
Qed.

Lemma requests_passed (env : Env) (deviceCode : string) (st : PollState) (w : World) :
  requests (trace (passed env deviceCode st w)) = S (requests (trace w)).
Proof. unfold passed. cbn [trace]. rewrite requests_app. cbn. lia. Qed.

Lemma pollLoop_eventsSince (env : Env) (fuel : nat) (deviceCode : string)
    (st : PollState) (w : World) :
  trace (snd (pollLoop env fuel deviceCode st w)) =
    trace w ++ eventsSince w (snd (pollLoop env fuel deviceCode st w)).
Proof.
  destruct (pollLoop_trace env fuel deviceCode st w) as (evs & late & Htr & _).
  now rewrite (eventsSince_app _ _ _ Htr).
Qed.

(** A pass of a run that stayed within the deadline: the clock was within
    the deadline, the request was posted, and the answer decided. *)
Lemma pollLoop_S_within (env : Env) (fuel : nat) (deviceCode : string)
    (st : PollState) (w : World) :
  withinDeadline (expiresAt st)
    (eventsSince w (snd (pollLoop env (S fuel) deviceCode st w))) = true ->
  let t := wakeUp env (interval st) w in
  let w1 := passed env deviceCode st w in
  t <= expiresAt st /\
  match dispatch st (tokenAnswer (serve env (requests (trace w)) (tokenRequest deviceCode))) with
  | Continue st' =>
    pollLoop env (S fuel) deviceCode st w = pollLoop env fuel deviceCode st' w1 /\
    eventsSince w (snd (pollLoop env (S fuel) deviceCode st w)) =
      [EvSleep (interval st); EvNow t; EvPost (tokenRequest deviceCode) t]
        ++ eventsSince w1 (snd (pollLoop env fuel deviceCode st' w1)) /\
    withinDeadline (expiresAt st')
      (eventsSince w1 (snd (pollLoop env fuel deviceCode st' w1))) = true
  | Return acResp err =>
    pollLoop env (S fuel) deviceCode st w = (Finished acResp err, w1)
  end.
Proof.
  intros Hin t w1. revert Hin.
  rewrite pollLoop_S, pollOnce_eq. cbv zeta. fold t.
  destruct (After t (expiresAt st)) eqn:Hafter; unfold After in Hafter.
  - apply Z.ltb_lt in Hafter. cbn [snd].
    erewrite eventsSince_app by (cbn [trace]; reflexivity).
    cbn. rewrite andb_true_r, Z.leb_le. lia.
  - apply Z.ltb_ge in Hafter. fold (passed env deviceCode st w). fold w1.
    destruct (dispatch st _) as [st'|acResp err] eqn:Hd; intros Hin.
    + split; [assumption|]. split; [reflexivity|].
      apply dispatch_Continue in Hd as [Hx _].
      assert (Hev : eventsSince w (snd (pollLoop env fuel deviceCode st' w1)) =
                [EvSleep (interval st); EvNow t; EvPost (tokenRequest deviceCode) t]
                  ++ eventsSince w1 (snd (pollLoop env fuel deviceCode st' w1))).
      { apply eventsSince_app. rewrite pollLoop_eventsSince.
        unfold w1 at 1, passed. cbn [trace]. fold t. now rewrite <- app_assoc. }
      split; [exact Hev|].
      change (withinDeadline (expiresAt st)
                (eventsSince w (snd (pollLoop env fuel deviceCode st' w1))) = true) in Hin.
      rewrite Hev, withinDeadline_app, andb_true_iff in Hin.
      rewrite Hx. apply Hin.
    + split; [assumption|reflexivity].
Qed.

(** ** The deadline *)

(** C1.  The poller never posts a token request after the deadline.  In
    the effects of any call of [pollAccessToken], run for any number of
    passes: every token request is sent at an instant [t <= deadline], and
    the effect just before it is the reading of the clock that gave [t] (the
    deadline is checked on every pass, right before polling); and when a
    reading of the clock gives [t > deadline], nothing follows it (no
    further request) and the poller returns the expiry error. *)
Theorem no_request_after_deadline (env : Env) (fuel : nat) (deviceCode : string)
    (delay : Duration) (deadline : Time) (w : World) :
  exists evs,
    trace (snd (pollAccessToken env fuel deviceCode delay deadline w)) = trace w ++ evs /\
    (forall pre req t post, evs = pre ++ EvPost req t :: post ->
       t <= deadline /\ exists pre', pre = pre' ++ [EvNow t]) /\
    (forall pre t post, evs = pre ++ EvNow t :: post -> deadline < t ->
       post = [] /\
       fst (pollAccessToken env fuel deviceCode delay deadline w)
         = Finished None (Some errExpired)).
Proof.
  unfold pollAccessToken.
  destruct (pollLoop_trace env fuel deviceCode (mkPollState delay deadline) w)
    as (evs & late & Htr & Hshape & Hlate).
  cbn [expiresAt] in Hshape.
  exists evs. split; [exact Htr|]. split.
  - intros pre req t post Heq. exact (PollTrace_post _ _ _ Hshape _ _ _ _ Heq).
  - intros pre t post Heq Ht.
    destruct (PollTrace_now _ _ _ Hshape _ _ _ Heq) as [_ Hpost].
    destruct (Hpost Ht) as [-> ->]. auto.
Qed.

(** C10.  Every pass sleeps first.  A pass from any state of the loop
    starts with [time.Sleep] of the current interval, then reads the clock
    (not before the sleep has run its time), then posts at most once.  So in
    a call of [pollAccessToken] the first effect is the sleep, every reading
    of the clock comes right after a sleep, every request right after a sleep
    and a reading, and a call whose deadline has already passed still sleeps
    the interval and only then returns the expiry error, without posting. *)
Theorem sleep_before_deadline_check (env : Env) (fuel : nat) (deviceCode : string)
    (delay : Duration) (deadline : Time) (w : World) :
  (forall st w0, exists t rest,
     trace (snd (pollOnce env deviceCode st w0))
       = trace w0 ++ EvSleep (interval st) :: EvNow t :: rest /\
     clock w0 + Z.max 0 (interval st) <= t /\
     (rest = [] \/ rest = [EvPost (tokenRequest deviceCode) t])) /\
  exists evs,
    trace (snd (pollAccessToken env (S fuel) deviceCode delay deadline w)) = trace w ++ evs /\
    (exists rest, evs = EvSleep delay :: rest) /\
    (forall pre t post, evs = pre ++ EvNow t :: post ->
       exists pre' d, pre = pre' ++ [EvSleep d]) /\
    (forall pre req t post, evs = pre ++ EvPost req t :: post ->
       exists pre' d, pre = pre' ++ [EvSleep d; EvNow t]) /\
    (deadline < clock w ->
       exists t, evs = [EvSleep delay; EvNow t] /\
         clock w + Z.max 0 delay <= t /\
         fst (pollAccessToken env (S fuel) deviceCode delay deadline w)
           = Finished None (Some errExpired)).
Proof.
  split.
  { intros st w0. rewrite pollOnce_eq. cbv zeta.
    exists (wakeUp env (interval st) w0).
    destruct (After _ _); cbn [snd trace].
    - exists []. repeat split; [unfold wakeUp; lia | now left].
    - eexists. repeat split; [unfold wakeUp; lia | now right]. }
  unfold pollAccessToken.
  set (st := mkPollState delay deadline).
  destruct (pollLoop_trace env (S fuel) deviceCode st w)
    as (evs & late & Htr & Hshape & Hlate).
  exists evs. split; [exact Htr|].
  assert (Hnow : forall pre t post, evs = pre ++ EvNow t :: post ->
            exists pre' d, pre = pre' ++ [EvSleep d]).
  { intros pre t post Heq. exact (proj1 (PollTrace_now _ _ _ Hshape _ _ _ Heq)). }
  revert Htr. rewrite pollLoop_S, pollOnce_eq. cbv zeta.
  destruct (After _ _) eqn:Hafter; unfold After in Hafter.
  - cbn [fst snd trace]. intros Htr. apply app_inv_head in Htr. subst evs.
    split; [eauto|]. split; [exact Hnow|]. split.
    + intros pre req t post Heq. destruct pre as [|e1 [|e2 [|e3 pre]]]; discriminate.
    + intros _. eexists. repeat split. unfold wakeUp. cbn. lia.
  - apply Z.ltb_ge in Hafter. intros Htr.
    assert (Hfirst : exists rest, evs = EvSleep delay :: rest).
    { destruct (dispatch st _) as [st'|acResp err].
      - rewrite pollLoop_eventsSince in Htr. cbn [trace] in Htr.
        rewrite <- app_assoc in Htr. apply app_inv_head in Htr. subst evs.
        cbn. eauto.
      - cbn [snd trace] in Htr. apply app_inv_head in Htr. subst evs. cbn. eauto. }
    split; [exact Hfirst|]. split; [exact Hnow|]. split.
    + intros pre req t post Heq.
      destruct (PollTrace_post _ _ _ Hshape _ _ _ _ Heq) as [_ [pre1 ->]].
      rewrite <- app_assoc in Heq. cbn [app] in Heq.
      destruct (Hnow _ _ _ Heq) as (pre2 & d & ->).
      exists pre2, d. now rewrite <- app_assoc.
    + intros Hpast. exfalso. unfold wakeUp in Hafter. cbn in Hafter. lia.
Qed.

(** ** The answers of the server *)

Lemma pollLoop_S_posted (env : Env) (fuel : nat) (deviceCode : string)
    (st : PollState) (w : World) :
  wakeUp env (interval st) w <= expiresAt st ->
  pollLoop env (S fuel) deviceCode st w =
    match dispatch st (tokenAnswer (serve env (requests (trace w)) (tokenRequest deviceCode))) with
    | Continue st' => pollLoop env fuel deviceCode st' (passed env deviceCode st w)
    | Return acResp err => (Finished acResp err, passed env deviceCode st w)
    end.
Proof.
  intros Ht. rewrite pollLoop_S, pollOnce_eq. cbv zeta.
  replace (After _ _) with false by (symmetry; apply Z.ltb_ge; exact Ht).
  reflexivity.
Qed.

Lemma eventsSince_passed (env : Env) (deviceCode : string) (st : PollState) (w : World) :
  eventsSince w (passed env deviceCode st w) =
    [EvSleep (interval st); EvNow (wakeUp env (interval st) w);
     EvPost (tokenRequest deviceCode) (wakeUp env (interval st) w)].
Proof. apply eventsSince_app. reflexivity. Qed.

Lemma dispatch_pending (st : PollState) (e : accessTokenErrorResponse) :
  Error e = "authorization_pending" -> dispatch st (None, Some e, None) = Continue st.
Proof. intros He. cbn. now rewrite He. Qed.

Lemma dispatch_slow_down (st : PollState) (e : accessTokenErrorResponse) :
  Error e = "slow_down" ->
  dispatch st (None, Some e, None)
    = Continue (mkPollState (mul64 (interval st) 2) (expiresAt st)).
Proof. intros He. cbn. now rewrite He. Qed.

Lemma dispatch_other (st : PollState) (e : accessTokenErrorResponse) :
  Error e <> "authorization_pending" -> Error e <> "slow_down" -> Error e <> "" ->
  dispatch st (None, Some e, None) = Return None (Some (errAuthorization e)).
Proof.
  intros H1 H2 H3. cbn.
  apply String.eqb_neq in H1, H2, H3. now rewrite H1, H2, H3.
Qed.

Section PendingThenToken.

Variables (env : Env) (deviceCode : string) (res : accessTokenResponse).

Lemma pending_passes (n : nat) :
  forall (fuel : nat) (st : PollState) (w : World),
  (forall k, (k < n)%nat ->
     answersError env (requests (trace w) + k) "authorization_pending") ->
  answersToken env (requests (trace w) + n) res ->
  withinDeadline (expiresAt st)
    (eventsSince w (snd (pollLoop env fuel deviceCode st w))) = true ->
  (n + 1 <= fuel)%nat ->
  fst (pollLoop env fuel deviceCode st w) = Finished (Some res) None /\
  requests (trace (snd (pollLoop env fuel deviceCode st w)))
    = (requests (trace w) + (n + 1))%nat /\
  sleeps (eventsSince w (snd (pollLoop env fuel deviceCode st w)))
    = repeat (interval st) (n + 1) /\
  (forall k, (k <= n)%nat -> fst (pollLoop env k deviceCode st w) = Running st).
Proof.
  induction n as [|m IH]; intros fuel st w Hpending Htoken Hin Hfuel;
    (destruct fuel as [|fuel]; [lia|]);
    destruct (pollLoop_S_within env fuel deviceCode st w Hin) as [Ht Hpass].
  - rewrite Nat.add_0_r in Htoken. rewrite (Htoken (tokenRequest deviceCode)) in Hpass.
    cbn [dispatch] in Hpass. rewrite Hpass. cbn [fst snd].
    rewrite requests_passed, eventsSince_passed. cbn [sleeps].
    repeat split; [lia|].
    intros k Hk. replace k with O by lia. reflexivity.
  - destruct (Hpending O ltac:(lia) (tokenRequest deviceCode)) as (e & Hans & He).
    rewrite Nat.add_0_r in Hans.
    pose proof (pollLoop_S_posted env fuel deviceCode st w Ht) as Hstep.
    rewrite Hans, (dispatch_pending st e He) in Hpass, Hstep.
    destruct Hpass as (_ & Hev & Hin').
    destruct (IH fuel st (passed env deviceCode st w)) as (Hres & Hreq & Hsl & Hrun).
    + intros k Hk. rewrite requests_passed.
      replace (S (requests (trace w)) + k)%nat with (requests (trace w) + S k)%nat by lia.
      apply Hpending. lia.
    + rewrite requests_passed.
      now replace (S (requests (trace w)) + m)%nat with (requests (trace w) + S m)%nat by lia.
    + exact Hin'.
    + lia.
    + rewrite Hstep, Hres, Hreq, requests_passed.
      rewrite Hstep in Hev. rewrite Hev, sleeps_app, Hsl.
      repeat split; [lia|].
      intros [|k] Hk; [reflexivity|].
      rewrite (pollLoop_S_posted env k deviceCode st w Ht), Hans, (dispatch_pending st e He).
      apply Hrun. lia.
Qed.

End PendingThenToken.

(** C3.  [n] answers [authorization_pending], then a token.  When the
    next [n] token requests are answered by error payloads with the code
    [authorization_pending], the one after them by a success payload, and
    every reading of the clock in the run is within the deadline, the poller
    (given at least [n + 1] passes) returns that success payload and no
    error, after exactly [n + 1] token requests, each after a sleep of the
    interval it was called with; and after each of the pending answers the
    loop is back at its top with the interval and the deadline it started
    with. *)
Theorem pending_then_token (env : Env) (fuel n : nat) (deviceCode : string)
    (delay : Duration) (deadline : Time) (w : World) (res : accessTokenResponse) :
  (forall k, (k < n)%nat ->
     answersError env (requests (trace w) + k) "authorization_pending") ->
  answersToken env (requests (trace w) + n) res ->
  withinDeadline deadline
    (eventsSince w (snd (pollAccessToken env fuel deviceCode delay deadline w))) = true ->
  (n + 1 <= fuel)%nat ->
  fst (pollAccessToken env fuel deviceCode delay deadline w) = Finished (Some res) None /\
  requests (trace (snd (pollAccessToken env fuel deviceCode delay deadline w)))
    = (requests (trace w) + (n + 1))%nat /\
  sleeps (eventsSince w (snd (pollAccessToken env fuel deviceCode delay deadline w)))
    = repeat delay (n + 1) /\
  (forall k, (k <= n)%nat ->
     fst (pollAccessToken env k deviceCode delay deadline w)
       = Running (mkPollState delay deadline)).
Proof.
  intros Hpending Htoken Hin Hfuel. unfold pollAccessToken in *.
  exact (pending_passes env deviceCode res n fuel
           (mkPollState delay deadline) w Hpending Htoken Hin Hfuel).
Qed.

(** The scenario of the specification: two pending answers, then the token
    [tok123], polled every 6 seconds with 900 seconds to go. *)
Lemma pending_then_token_witness :
  let env := scripted [errorBody "authorization_pending";
                       errorBody "authorization_pending"] tokenBody 0 in
  fst (pollAccessToken env 10 "D" (6 * Second) (900 * Second) genesis)
    = Finished (Some (mkAccessTokenResponse "tok123" "bearer" "")) None /\
  requests (trace (snd (pollAccessToken env 10 "D" (6 * Second) (900 * Second) genesis)))
    = 3%nat /\
  sleeps (eventsSince genesis
            (snd (pollAccessToken env 10 "D" (6 * Second) (900 * Second) genesis)))
    = [6 * Second; 6 * Second; 6 * Second].
Proof.
  intros env.
  destruct (pending_then_token env 10 2 "D" (6 * Second) (900 * Second) genesis
              (mkAccessTokenResponse "tok123" "bearer" "")) as (Hres & Hreq & Hsl & _).
  - intros k Hk req. exists (mkAccessTokenErrorResponse "authorization_pending" "" "").
    destruct k as [|[|k]]; [split; reflexivity | split; reflexivity | lia].
  - intros req. reflexivity.
  - vm_compute. reflexivity.
  - lia.
  - repeat split; assumption.
Defined.

Section SlowDown.

Variables (env : Env) (deviceCode : string).

Lemma slow_down_passes (k : nat) :
  forall (st : PollState) (w : World),
  min_int64 <= interval st <= max_int64 ->
  (forall j, (j < k)%nat -> answersError env (requests (trace w) + j) "slow_down") ->
  withinDeadline (expiresAt st)
    (eventsSince w (snd (pollLoop env k deviceCode st w))) = true ->
  fst (pollLoop env k deviceCode st w)
    = Running (mkPollState (wrap64 (interval st * 2 ^ Z.of_nat k)) (expiresAt st)) /\
  requests (trace (snd (pollLoop env k deviceCode st w)))
    = (requests (trace w) + k)%nat.
Proof.
  induction k as [|k IH]; intros st w Hrange Hslow Hin.
  - cbn [pollLoop ret fst snd]. change (2 ^ Z.of_nat 0) with 1.
    rewrite Z.mul_1_r, wrap64_small by exact Hrange.
    destruct st; split; [reflexivity | lia].
  - destruct (pollLoop_S_within env k deviceCode st w Hin) as [Ht Hpass].
    destruct (Hslow O ltac:(lia) (tokenRequest deviceCode)) as (e & Hans & He).
    rewrite Nat.add_0_r in Hans.
    rewrite Hans, (dispatch_slow_down st e He) in Hpass.
    destruct Hpass as (Hstep & _ & Hin').
    set (st' := mkPollState (mul64 (interval st) 2) (expiresAt st)) in *.
    destruct (IH st' (passed env deviceCode st w)) as [Hres Hreq].
    + apply wrap64_range.
    + intros j Hj. rewrite requests_passed.
      replace (S (requests (trace w)) + j)%nat with (requests (trace w) + S j)%nat by lia.
      apply Hslow. lia.
    + exact Hin'.
    + rewrite Hstep, Hres, Hreq, requests_passed. split; [|lia].
      unfold st', mul64. cbn [interval expiresAt].
      rewrite wrap64_mul_l, Nat2Z.inj_succ, Z.pow_succ_r by lia.
      do 3 f_equal. ring.
Qed.

End SlowDown.

(** C2, as the code has it.  [k] answers [slow_down] in a row.  When the
    next [k] token requests are answered by error payloads with the code
    [slow_down] and every reading of the clock in these passes is within the
    deadline, then after the [k] passes the loop is back at its top (polling
    goes on: any further passes start from there), with the deadline
    unchanged and the interval doubled [k] times in 64-bit arithmetic: it is
    [delay * 2 ^ k] reduced to the range of an [int64], which is
    [delay * 2 ^ k] itself whenever that fits an [int64].  Nothing else caps
    it. *)
Theorem slow_down_doubles (env : Env) (k : nat) (deviceCode : string)
    (delay : Duration) (deadline : Time) (w : World) :
  min_int64 <= delay <= max_int64 ->
  (forall j, (j < k)%nat -> answersError env (requests (trace w) + j) "slow_down") ->
  withinDeadline deadline
    (eventsSince w (snd (pollAccessToken env k deviceCode delay deadline w))) = true ->
  let current := wrap64 (delay * 2 ^ Z.of_nat k) in
  fst (pollAccessToken env k deviceCode delay deadline w)
    = Running (mkPollState current deadline) /\
  (min_int64 <= delay * 2 ^ Z.of_nat k <= max_int64 -> current = delay * 2 ^ Z.of_nat k) /\
  requests (trace (snd (pollAccessToken env k deviceCode delay deadline w)))
    = (requests (trace w) + k)%nat /\
  (forall more,
     pollAccessToken env (k + more) deviceCode delay deadline w
       = pollLoop env more deviceCode (mkPollState current deadline)
           (snd (pollAccessToken env k deviceCode delay deadline w))).
Proof.
  intros Hrange Hslow Hin current. unfold pollAccessToken in *.
  destruct (slow_down_passes env deviceCode k (mkPollState delay deadline) w
              Hrange Hslow Hin) as [Hres Hreq].
  cbn [interval expiresAt] in Hres. fold current in Hres.
  split; [exact Hres|]. split; [apply wrap64_small|]. split; [exact Hreq|].
  intros more. rewrite pollLoop_add.
  destruct (pollLoop env k deviceCode (mkPollState delay deadline) w) as [r w'].
  cbn [fst snd] in *. now rewrite Hres.
Qed.

(** Three [slow_down] answers from a 6-second interval: 48 seconds. *)
Lemma slow_down_doubles_witness :
  let env := scripted [] (errorBody "slow_down") 0 in
  fst (pollAccessToken env 3 "D" (6 * Second) (900 * Second) genesis)
    = Running (mkPollState (48 * Second) (900 * Second)) /\
  requests (trace (snd (pollAccessToken env 3 "D" (6 * Second) (900 * Second) genesis)))
    = 3%nat.
Proof.
  intros env.
  destruct (slow_down_doubles env 3 "D" (6 * Second) (900 * Second) genesis)
    as (Hres & Hexact & Hreq & _).
  - vm_compute. split; discriminate.
  - intros j Hj req. exists (mkAccessTokenErrorResponse "slow_down" "" "").
    destruct j as [|[|[|j]]]; [split; reflexivity .. | lia].
  - vm_compute. reflexivity.
  - split; [|exact Hreq]. rewrite Hres. reflexivity.
Defined.

(** C2, as the specification has it, fails, at inputs [run] can reach: the
    interval is an [int64] of nanoseconds.  A device-code response with
    [interval] -5 makes [run] call the poller with -4 seconds.  A negative
    interval is not slept, so 32 answers [slow_down] in a row come well
    within the 900 seconds; the 32nd doubling leaves the range of an [int64]
    and the interval is [-4 * 10^9 * 2^32 + 2^64] nanoseconds, some 40 years,
    not [-4 * 10^9 * 2^32].  [run] then sleeps that long and gives up. *)
Lemma slow_down_wraps_around :
  let env := scripted [] (errorBody "slow_down") 0 in
  let deadline := 900 * Second in
  (forall j, answersError env j "slow_down") /\
  min_int64 <= -4 * Second <= max_int64 /\
  withinDeadline deadline
    (eventsSince genesis (snd (pollAccessToken env 32 "D" (-4 * Second) deadline genesis)))
    = true /\
  fst (pollAccessToken env 32 "D" (-4 * Second) deadline genesis)
    = Running (mkPollState 1266874889709551616 deadline) /\
  1266874889709551616 = -4 * Second * 2 ^ 32 + 2 ^ 64 /\
  1266874889709551616 <> -4 * Second * 2 ^ 32 /\
  (let served := scripted [deviceCodeBody 900 (-5)] (errorBody "slow_down") 0 in
   firstn 2 (sleeps (trace (snd (run served 33 genesis)))) = [-4 * Second; -8 * Second] /\
   last (sleeps (trace (snd (run served 33 genesis)))) 0 = 1266874889709551616 /\
   fst (run served 33 genesis) = Some (Returned (Some errExpired))).
Proof.
  intros env deadline. split; [|split; [|split; [|split; [|split; [|split]]]]].
  - intros j req. exists (mkAccessTokenErrorResponse "slow_down" "" "").
    destruct j; split; reflexivity.
  - vm_compute. split; discriminate.
  - vm_compute. reflexivity.
  - vm_compute. reflexivity.
  - vm_compute. reflexivity.
  - vm_compute. discriminate.
  - repeat split; vm_compute; reflexivity.
Qed.

(** C5.  Any other error code ends the polling at once.  Whatever came
    before (the loop is at its top after some passes), when the deadline has
    not passed and the token request is answered by an error payload whose
    code is not empty and is neither [authorization_pending] nor [slow_down],
    the poller returns in that pass: one request, nothing after it, no
    payload, and an error whose message is the code, the description and the
    URI as they came, with a space between them.  For the code
    [expired_token] that error is not the one the deadline gives. *)
Theorem other_error_stops_polling (env : Env) (passes more : nat) (deviceCode : string)
    (delay : Duration) (deadline : Time) (w0 : World)
    (st : PollState) (w : World) (e : accessTokenErrorResponse) :
  pollAccessToken env passes deviceCode delay deadline w0 = (Running st, w) ->
  tokenAnswer (serve env (requests (trace w)) (tokenRequest deviceCode))
    = (None, Some e, None) ->
  Error e <> "authorization_pending" -> Error e <> "slow_down" -> Error e <> "" ->
  wakeUp env (interval st) w <= expiresAt st ->
  let t := wakeUp env (interval st) w in
  pollAccessToken env (passes + S more) deviceCode delay deadline w0
    = (Finished None (Some (errAuthorization e)), passed env deviceCode st w) /\
  trace (passed env deviceCode st w)
    = trace w ++ [EvSleep (interval st); EvNow t; EvPost (tokenRequest deviceCode) t] /\
  errAuthorization e
    = errorString (Error e ++ " " ++ ErrorDescription e ++ " " ++ ErrorUri e)%string /\
  (Error e = "expired_token" -> errAuthorization e <> errExpired).
Proof.
  intros Hbefore Hans H1 H2 H3 Ht t. unfold pollAccessToken in *.
  split; [|split; [reflexivity|split; [reflexivity|]]].
  - rewrite pollLoop_add, Hbefore, (pollLoop_S_posted _ _ _ _ _ Ht), Hans.
    now rewrite dispatch_other.
  - intros He. unfold errAuthorization, errExpired. rewrite He. discriminate.
Qed.

(** The scenario of the specification: [slow_down] once, then
    [expired_token]. *)
Lemma other_error_stops_polling_witness :
  let env := scripted [errorBody "slow_down"]
               (stringObject [("error", "expired_token");
                              ("error_description", "The device code has expired.");
                              ("error_uri", "https://docs.github.com")]) 0 in
  fst (pollAccessToken env 10 "D" (6 * Second) (900 * Second) genesis)
    = Finished None
        (Some (errorString
                 "expired_token The device code has expired. https://docs.github.com")) /\
  requests (trace (snd (pollAccessToken env 10 "D" (6 * Second) (900 * Second) genesis)))
    = 2%nat.
Proof.
  intros env.
  destruct (other_error_stops_polling env 1 8 "D" (6 * Second) (900 * Second) genesis
              (mkPollState (12 * Second) (900 * Second))
              (snd (pollAccessToken env 1 "D" (6 * Second) (900 * Second) genesis))
              (mkAccessTokenErrorResponse "expired_token" "The device code has expired."
                 "https://docs.github.com")) as (Hres & Htrace & _ & _).
  - vm_compute. reflexivity.
  - vm_compute. reflexivity.
  - cbn. discriminate.
  - cbn. discriminate.
  - cbn. discriminate.
  - vm_compute. discriminate.
  - change (1 + 9)%nat with 10%nat in Hres. rewrite Hres. cbn [fst snd].
    rewrite Htrace. split; reflexivity.
Defined.

(** ** Telling a token from an error *)

Lemma object_app {T} (fields : list (json.field T)) (a b : list (string * json.value))
    (v : T) (saved : option error) :
  json.object fields (a ++ b) v saved =
    json.object fields b (fst (json.object fields a v saved))
                         (snd (json.object fields a v saved)).
Proof.
  revert v saved. induction a as [|[key item] a IH]; intros v saved; [reflexivity|].
  cbn [app json.object].
  destruct (find _ fields) as [f|]; [destruct (json.store f item v)|]; apply IH.
Qed.

(** Members no field answers to leave the struct and the error alone. *)
Lemma object_skipped {T} (fields : list (json.field T)) (ms : list (string * json.value))
    (v : T) (saved : option error) :
  forallb (fun m =>
    match find (fun f => String.eqb (json.tag f) (json.foldName (fst m))) fields with
    | None => true
    | Some _ => false
    end) ms = true ->
  json.object fields ms v saved = (v, saved).
Proof.
  induction ms as [|[key item] ms IH]; [reflexivity|].
  cbn [forallb fst json.object]. rewrite andb_true_iff. intros [Hm Hms].
  destruct (find _ fields); [discriminate|]. exact (IH Hms).
Qed.

Lemma errorShaped_skipped (m : string * json.value) :
  errorShaped m = true ->
  match find (fun f => String.eqb (json.tag f) (json.foldName (fst m))) accessTokenFields with
  | None => true
  | Some _ => false
  end = true.
Proof.
  unfold errorShaped. rewrite !orb_true_iff, !String.eqb_eq.
  intros [[-> | ->] | ->]; reflexivity.
Qed.

(** C4, as the code has it.  A token wins over an error.  A body that decodes as a success
    payload (no decoding error, [access_token] not empty) is classified as
    that payload, whatever decoding it as an error payload would give; it
    stays so when members named [error], [error_description] or [error_uri],
    of any value, are written anywhere among its members; and a poller that
    gets it within the deadline returns the payload (access token, token type
    and scope) and no error. *)
Theorem token_takes_priority (env : Env) (more : nat) (deviceCode : string)
    (st : PollState) (w : World) (body : json.Body) (res : accessTokenResponse) :
  json.Unmarshal accessTokenFields body zeroAccessTokenResponse = (res, None) ->
  AccessToken res <> "" ->
  decodeAccessToken body = (Some res, None, None) /\
  (forall before siblings after,
     body = json.Doc (json.Object (before ++ after)) ->
     forallb errorShaped siblings = true ->
     decodeAccessToken (json.Doc (json.Object (before ++ siblings ++ after)))
       = (Some res, None, None)) /\
  (serve env (requests (trace w)) (tokenRequest deviceCode) = inr body ->
   wakeUp env (interval st) w <= expiresAt st ->
   pollLoop env (S more) deviceCode st w
     = (Finished (Some res) None, passed env deviceCode st w)).
Proof.
  intros Hdec Htok.
  assert (Hgen : forall b, json.Unmarshal accessTokenFields b zeroAccessTokenResponse
                   = (res, None) -> decodeAccessToken b = (Some res, None, None)).
  { intros b Hb. unfold decodeAccessToken. rewrite Hb.
    apply String.eqb_neq in Htok. now rewrite Htok. }
  split; [exact (Hgen body Hdec)|]. split.
  - intros before siblings after -> Hsib. apply Hgen.
    cbn [json.Unmarshal] in *. rewrite object_app in Hdec.
    rewrite !object_app.
    rewrite (object_skipped accessTokenFields siblings).
    + exact Hdec.
    + rewrite forallb_forall in *. intros m Hm.
      apply errorShaped_skipped, Hsib, Hm.
  - intros Hserve Ht. rewrite (pollLoop_S_posted _ _ _ _ _ Ht), Hserve.
    cbn [tokenAnswer]. now rewrite (Hgen body Hdec).
Qed.

(** A token with a [slow_down] beside it. *)
Lemma token_takes_priority_witness :
  let body := stringObject [("error", "slow_down"); ("access_token", "tok123");
                            ("token_type", "bearer"); ("scope", "");
                            ("error_description", "too fast")] in
  decodeAccessToken body = (Some (mkAccessTokenResponse "tok123" "bearer" ""), None, None) /\
  fst (pollAccessToken (scripted [] body 0) 10 "D" (6 * Second) (900 * Second) genesis)
    = Finished (Some (mkAccessTokenResponse "tok123" "bearer" "")) None.
Proof.
  intros body.
  destruct (token_takes_priority (scripted [] body 0) 9 "D"
              (mkPollState (6 * Second) (900 * Second)) genesis body
              (mkAccessTokenResponse "tok123" "bearer" "")) as (Hdec & _ & Hpoll).
  - reflexivity.
  - cbn. discriminate.
  - split; [exact Hdec|]. unfold pollAccessToken. rewrite Hpoll.
    + reflexivity.
    + reflexivity.
    + vm_compute. discriminate.
Defined.

(** C4, as the specification has it, fails: a non-empty access token is
    not enough, the whole body has to decode.  In
    [{"access_token": "tok", "token_type": 5}] the access token is read and
    is not empty, but the number does not fit [token_type]: the decoding
    returns an error, the body is not taken as a token, and (having no error
    code either) it comes back as three nils.  In
    [{"access_token": "tok", "scope": ["repo"], "error": "slow_down"}] the
    error wins: the poller doubles its interval and polls on. *)
Lemma misfit_beside_token :
  let typed := json.Doc (json.Object [("access_token", json.String "tok");
                                      ("token_type", json.Number (json.Integer 5))]) in
  let scoped := json.Doc (json.Object [("access_token", json.String "tok");
                                       ("scope", json.Array [json.String "repo"]);
                                       ("error", json.String "slow_down")]) in
  json.Unmarshal accessTokenFields typed zeroAccessTokenResponse
    = (mkAccessTokenResponse "tok" "" "",
       Some (UnmarshalTypeError "number" "token_type")) /\
  decodeAccessToken typed = (None, None, None) /\
  fst (pollAccessToken (scripted [] typed 0) 10 "D" (6 * Second) (900 * Second) genesis)
    = Finished None None /\
  AccessToken (fst (json.Unmarshal accessTokenFields scoped zeroAccessTokenResponse))
    = "tok" /\
  decodeAccessToken scoped
    = (None, Some (mkAccessTokenErrorResponse "slow_down" "" ""), None) /\
  fst (pollAccessToken (scripted [scoped] tokenBody 0) 1 "D"
         (6 * Second) (900 * Second) genesis)
    = Running (mkPollState (12 * Second) (900 * Second)).
Proof. repeat split; vm_compute; reflexivity. Qed.

Lemma neither_decodes (body : json.Body) (res : accessTokenResponse)
    (err : option error) (e : accessTokenErrorResponse) :
  json.Unmarshal accessTokenFields body zeroAccessTokenResponse = (res, err) ->
  err <> None \/ AccessToken res = "" ->
  json.Unmarshal accessTokenErrorFields body zeroAccessTokenErrorResponse = (e, None) ->
  Error e = "" ->
  decodeAccessToken body = (None, None, None).
Proof.
  intros Hres Hno Herr He. unfold decodeAccessToken. rewrite Hres, Herr, He.
  destruct Hno as [Hno | ->].
  - destruct err; [reflexivity | contradiction].
  - destruct err; reflexivity.
Qed.

(** C6.  A body that is JSON but neither a token nor an error is not
    reported as an error.  For the body [{}], [postAccessToken] finds
    neither a token nor an error code and returns the error of its second
    decoding, which is nil: three nils.  [pollAccessToken] then returns a nil
    response with a nil error, as if it had a token, and [run] dereferences
    the nil response and panics.  Only a body that is not JSON at all comes
    back as an error. *)
Theorem empty_object_is_no_error :
  let body := json.Doc (json.Object []) in
  decodeAccessToken body = (None, None, None) /\
  fst (pollAccessToken (scripted [] body 0) 10 "D" (6 * Second) (900 * Second) genesis)
    = Finished None None /\
  fst (run (scripted [deviceCodeBody 900 5] body 0) 10 genesis) = Some Panicked /\
  decodeAccessToken json.Invalid = (None, None, Some SyntaxError).
Proof. repeat split; vm_compute; reflexivity. Qed.

(** ** The orchestrator *)

(** What [run] does up to the call of the poller, when the device code
    came. *)
Lemma run_polls (env : Env) (fuel : nat) (w : World)
    (body : json.Body) (dc : deviceCodeResponse) :
  serve env (requests (trace w)) deviceCodeRequest = inr body ->
  json.Unmarshal deviceCodeFields body zeroDeviceCodeResponse = (dc, None) ->
  exists w2,
    run env fuel w =
      bind (pollAccessToken env fuel (DeviceCode dc)
              (mul64 (add64 (Interval dc) 1) Second)
              (Add (clock w) (mul64 (ExpiresIn dc) Second)))
           (reportToken env) w2 /\
    clock w <= clock w2 /\
    trace w2 = trace w ++
      [EvNow (clock w); EvPost deviceCodeRequest (clock w);
       EvPrint ("Open " ++ VerificationURI dc
                  ++ " in your browser and enter this code:" ++ newline)%string;
       EvPrint (UserCode dc ++ newline)%string].
Proof.
  intros Hserve Hdec.
  unfold run, bind at 1 2, Now, postDeviceCode, bind at 1, post, effect.
  cbn [fst snd clock trace].
  rewrite requests_app. cbn [requests filter isPost List.length].
  rewrite Nat.add_0_r. fold deviceCodeRequest. rewrite Hserve, Hdec.
  unfold ret at 1, bind at 1 2, Print, effect. cbn [fst snd clock trace].
  eexists. split; [reflexivity|]. cbn [clock trace].
  split; [lia|]. now rewrite <- !app_assoc.
Qed.

(** C7, as the code has it.  When the device code comes, [run] has read
    the clock right before posting the request for it (the request is sent at
    that very instant) and, after printing, calls the poller with the
    device code, the interval [interval + 1] seconds and the deadline
    [expires_in] seconds after that reading of the clock, however long the
    request and the printing took, provided both amounts of seconds fit an
    [int64] of nanoseconds. *)
Theorem run_polls_from_request_time (env : Env) (fuel : nat) (w : World)
    (body : json.Body) (dc : deviceCodeResponse) :
  serve env (requests (trace w)) deviceCodeRequest = inr body ->
  json.Unmarshal deviceCodeFields body zeroDeviceCodeResponse = (dc, None) ->
  min_int64 <= (Interval dc + 1) * Second <= max_int64 ->
  min_int64 <= ExpiresIn dc * Second <= max_int64 ->
  let issuedAt := clock w in
  exists w2,
    run env fuel w =
      bind (pollAccessToken env fuel (DeviceCode dc)
              ((Interval dc + 1) * Second) (issuedAt + ExpiresIn dc * Second))
           (reportToken env) w2 /\
    issuedAt <= clock w2 /\
    trace w2 = trace w ++
      [EvNow issuedAt; EvPost deviceCodeRequest issuedAt;
       EvPrint ("Open " ++ VerificationURI dc
                  ++ " in your browser and enter this code:" ++ newline)%string;
       EvPrint (UserCode dc ++ newline)%string].
Proof.
  intros Hserve Hdec Hinterval Hexpires issuedAt.
  destruct (run_polls env fuel w body dc Hserve Hdec) as (w2 & Hrun & Hclock & Htrace).
  exists w2. split; [|split; assumption].
  rewrite Hrun. unfold mul64, add64, Add.
  rewrite (wrap64_small (Interval dc + 1)).
  - now rewrite !wrap64_small.
  - unfold min_int64, max_int64, Second in *. lia.
Qed.

(** The scenario of the specification: 900 seconds, every 5 seconds, and
    half a second for every request and every line printed. *)
Lemma run_polls_from_request_time_witness :
  let env := scripted [deviceCodeBody 900 5; errorBody "authorization_pending";
                       errorBody "authorization_pending"] tokenBody 500000000 in
  (exists w2,
     run env 10 genesis =
       bind (pollAccessToken env 10 "D" (6 * Second) (900 * Second))
            (reportToken env) w2 /\
     0 <= clock w2) /\
  fst (run env 10 genesis) = Some (Returned None).
Proof.
  intros env. split; [|vm_compute; reflexivity].
  destruct (run_polls_from_request_time env 10 genesis (deviceCodeBody 900 5)
              (mkDeviceCodeResponse "D" 900 5 "ABCD-1234" "https://x/device"))
    as (w2 & Hrun & Hclock & _).
  - reflexivity.
  - reflexivity.
  - vm_compute. split; discriminate.
  - vm_compute. split; discriminate.
  - exists w2. split; [exact Hrun | exact Hclock].
Defined.

(** C7, as the specification has it, fails for amounts of seconds that do
    not fit an [int64] of nanoseconds: with [interval] 9223372036 in the
    device-code response, the poller is called with, and sleeps, a negative
    interval, not 9223372037 seconds. *)
Lemma huge_interval_wraps_around :
  let env := scripted [deviceCodeBody 900 9223372036]
               (errorBody "authorization_pending") 0 in
  fst (postDeviceCode env genesis)
    = (Some (mkDeviceCodeResponse "D" 900 9223372036 "ABCD-1234" "https://x/device"), None) /\
  sleeps (trace (snd (run env 1 genesis))) = [-9223372036709551616] /\
  -9223372036709551616 <> (9223372036 + 1) * Second.
Proof. repeat split; vm_compute; try reflexivity; discriminate. Qed.

(** ** The state of the loop *)

Lemma pow2_pos (n : nat) : 1 <= 2 ^ Z.of_nat n.
Proof. pose proof (Z.pow_pos_nonneg 2 (Z.of_nat n)). lia. Qed.

Lemma loop_state (env : Env) (deviceCode : string) (fuel : nat) :
  forall (st st' : PollState) (w : World),
  fst (pollLoop env fuel deviceCode st w) = Running st' ->
  expiresAt st' = expiresAt st /\
  (0 <= interval st -> interval st * 2 ^ Z.of_nat fuel <= max_int64 ->
   interval st <= interval st' <= interval st * 2 ^ Z.of_nat fuel).
Proof.
  induction fuel as [|fuel IH]; intros st st' w.
  - cbn. intros [= <-]. split; [reflexivity|]. lia.
  - rewrite pollLoop_S, pollOnce_eq. cbv zeta.
    destruct (After _ _); [discriminate|].
    destruct (dispatch st _) as [st1|acResp err] eqn:Hd; [|discriminate].
    intros Hrun. apply dispatch_Continue in Hd as [Hx Hi].
    destruct (IH _ _ _ Hrun) as [Hx' Hi']. split; [congruence|].
    intros Hpos Hmax.
    rewrite Nat2Z.inj_succ, Z.pow_succ_r in * by lia.
    pose proof (pow2_pos fuel) as Hp.
    set (p := 2 ^ Z.of_nat fuel) in *. set (i := interval st) in *.
    assert (i * p <= i * (2 * p)) by nia.
    destruct Hi as [Hi | Hi]; rewrite Hi in Hi'.
    + assert (i <= interval st' <= i * p) by (apply Hi'; lia). lia.
    + unfold mul64 in Hi'. fold i in Hi'.
      assert (i * 2 <= i * (2 * p)) by nia.
      rewrite wrap64_small in Hi' by (unfold min_int64 in *; lia).
      assert (i * 2 <= interval st' <= i * 2 * p) by (apply Hi'; lia). lia.
Qed.

(** A bound by the number of passes.  Take the state of the loop after [a] passes
    and after [a + b] passes of one call of the poller.  The deadline is
    in both the one the poller was called with.  When the interval the poller
    was called with is not negative and can be doubled [a + b] times within
    an [int64], the interval has not decreased: from the call to the first
    state, and from the first state to the second. *)
Theorem interval_grows_deadline_stays (env : Env) (a b : nat) (deviceCode : string)
    (delay : Duration) (deadline : Time) (w : World) (st_a st_b : PollState) :
  fst (pollAccessToken env a deviceCode delay deadline w) = Running st_a ->
  fst (pollAccessToken env (a + b) deviceCode delay deadline w) = Running st_b ->
  expiresAt st_a = deadline /\ expiresAt st_b = deadline /\
  (0 <= delay -> delay * 2 ^ Z.of_nat (a + b) <= max_int64 ->
   delay <= interval st_a <= interval st_b).
Proof.
  unfold pollAccessToken. intros Ha Hb.
  rewrite pollLoop_add in Hb.
  destruct (pollLoop env a deviceCode (mkPollState delay deadline) w) as [r wa] eqn:Hrun.
  cbn [fst] in Ha. subst r.
  pose proof (loop_state env deviceCode a (mkPollState delay deadline) st_a w) as [Hxa Hia].
  { now rewrite Hrun. }
  destruct (loop_state env deviceCode b st_a st_b wa Hb) as [Hxb Hib].
  cbn [expiresAt interval] in *.
  split; [exact Hxa|]. split; [congruence|].
  intros Hpos Hmax.
  rewrite Nat2Z.inj_add, Z.pow_add_r in Hmax by lia.
  pose proof (pow2_pos a). pose proof (pow2_pos b).
  assert (delay * 2 ^ Z.of_nat a <= delay * (2 ^ Z.of_nat a * 2 ^ Z.of_nat b)) by nia.
  assert (Hra : delay <= interval st_a <= delay * 2 ^ Z.of_nat a) by (apply Hia; lia).
  assert (interval st_a * 2 ^ Z.of_nat b
            <= delay * (2 ^ Z.of_nat a * 2 ^ Z.of_nat b)) by nia.
  assert (interval st_a <= interval st_b <= interval st_a * 2 ^ Z.of_nat b)
    by (apply Hib; lia).
  lia.
Qed.

(** [slow_down], [authorization_pending], [slow_down]: 6, 12, 12 and 24
    seconds. *)
Lemma interval_grows_deadline_stays_witness :
  let env := scripted [errorBody "slow_down"; errorBody "authorization_pending"]
               (errorBody "slow_down") 0 in
  let st_a := mkPollState (12 * Second) (900 * Second) in
  let st_b := mkPollState (24 * Second) (900 * Second) in
  fst (pollAccessToken env 1 "D" (6 * Second) (900 * Second) genesis) = Running st_a /\
  fst (pollAccessToken env 3 "D" (6 * Second) (900 * Second) genesis) = Running st_b /\
  expiresAt st_a = 900 * Second /\ expiresAt st_b = 900 * Second /\
  6 * Second <= interval st_a <= interval st_b.
Proof.
  intros env st_a st_b.
  assert (Ha : fst (pollAccessToken env 1 "D" (6 * Second) (900 * Second) genesis)
                 = Running st_a) by (vm_compute; reflexivity).
  assert (Hb : fst (pollAccessToken env (1 + 2) "D" (6 * Second) (900 * Second) genesis)
                 = Running st_b) by (vm_compute; reflexivity).
  destruct (interval_grows_deadline_stays env 1 2 "D" (6 * Second) (900 * Second)
              genesis st_a st_b Ha Hb) as (Hxa & Hxb & Hgrow).
  split; [exact Ha|]. split; [exact Hb|]. split; [exact Hxa|]. split; [exact Hxb|].
  apply Hgrow; vm_compute; discriminate.
Defined.

(** C9, as the specification has it, fails: a negative interval shrinks.
    A device-code response with [interval] -5 makes [run] call the poller
    with -4 seconds; after one [slow_down] the interval is -8 seconds, which
    is less. *)
Lemma negative_interval_shrinks :
  let env := scripted [] (errorBody "slow_down") 0 in
  fst (pollAccessToken env 1 "D" (-4 * Second) (900 * Second) genesis)
    = Running (mkPollState (-8 * Second) (900 * Second)) /\
  -8 * Second < -4 * Second /\
  sleeps (trace (snd (run (scripted [deviceCodeBody 900 (-5)] (errorBody "slow_down") 0)
                        2 genesis)))
    = [-4 * Second; -8 * Second].
Proof. repeat split; vm_compute; reflexivity. Qed.

Lemma loopStates_head (env : Env) (fuel : nat) (deviceCode : string)
    (st : PollState) (w : World) :
  exists rest, loopStates env fuel deviceCode st w = st :: rest.
Proof. destruct fuel; cbn [loopStates]; eauto. Qed.

Lemma pollOnce_Continue (env : Env) (deviceCode : string) (st st' : PollState)
    (w w' : World) :
  pollOnce env deviceCode st w = (Continue st', w') ->
  expiresAt st' = expiresAt st /\
  (interval st' = interval st \/ interval st' = mul64 (interval st) 2).
Proof.
  rewrite pollOnce_eq. cbv zeta. destruct (After _ _); [discriminate|].
  intros [= Hd _]. exact (dispatch_Continue _ _ _ Hd).
Qed.

(** The states of a run are the states the loop is in after 0, 1, 2, ...
    passes. *)
Lemma loopStates_nth (env : Env) (deviceCode : string) (a : nat) :
  forall (fuel : nat) (st st_a : PollState) (w : World),
  (a <= fuel)%nat ->
  fst (pollLoop env a deviceCode st w) = Running st_a ->
  nth_error (loopStates env fuel deviceCode st w) a = Some st_a.
Proof.
  induction a as [|a IH]; intros fuel st st_a w Hfuel.
  - cbn [pollLoop ret fst]. intros [= <-].
    destruct (loopStates_head env fuel deviceCode st w) as [rest ->]. reflexivity.
  - destruct fuel as [|fuel]; [lia|].
    rewrite pollLoop_S. cbn [loopStates nth_error].
    destruct (pollOnce env deviceCode st w) as [[st'|acResp err] w']; [|discriminate].
    apply IH. lia.
Qed.

Lemma loopStates_deadline (env : Env) (deviceCode : string) (fuel : nat) :
  forall (st : PollState) (w : World),
  Forall (fun s => expiresAt s = expiresAt st) (loopStates env fuel deviceCode st w).
Proof.
  induction fuel as [|fuel IH]; intros st w; cbn [loopStates].
  - repeat constructor.
  - constructor; [reflexivity|].
    destruct (pollOnce env deviceCode st w) as [[st'|acResp err] w'] eqn:Hpass;
      [|constructor].
    apply pollOnce_Continue in Hpass as [Hx _]. rewrite <- Hx. apply IH.
Qed.

Lemma loopStates_sorted (env : Env) (deviceCode : string) (fuel : nat) :
  forall (st : PollState) (w : World),
  0 <= interval st ->
  doublingsFit (loopStates env fuel deviceCode st w) = true ->
  Sorted Z.le (map interval (loopStates env fuel deviceCode st w)).
Proof.
  induction fuel as [|fuel IH]; intros st w Hpos; cbn [loopStates].
  - intros _. repeat constructor.
  - destruct (pollOnce env deviceCode st w) as [[st'|acResp err] w'] eqn:Hpass.
    + destruct (loopStates_head env fuel deviceCode st' w') as [rest Hrest].
      pose proof (IH st' w') as IH'. rewrite Hrest in *.
      cbn [doublingsFit map]. rewrite andb_true_iff, orb_true_iff, Z.eqb_eq, Z.leb_le.
      intros [Hfit Hfits].
      apply pollOnce_Continue in Hpass as [_ Hst'].
      assert (Hle : interval st <= interval st').
      { destruct Hfit as [-> | Hfit]; [lia|].
        destruct Hst' as [-> | ->]; [lia|].
        unfold mul64. rewrite wrap64_small; unfold min_int64; lia. }
      constructor; [apply IH'; [lia | exact Hfits] | constructor; exact Hle].
    + intros _. repeat constructor.
Qed.

(** C9, as the code has it.  Take the states the loop is in, pass after
    pass, in a call of the poller run for any number of passes (they are the
    states of [pollLoop] after 0, 1, 2, ... passes).  The deadline is in all
    of them the one the poller was called with.  When the interval it was
    called with is not negative and every doubling on the way fits an
    [int64], the intervals never decrease: every later state has an interval
    at least that of every earlier one. *)
Theorem interval_never_shrinks (env : Env) (fuel : nat) (deviceCode : string)
    (delay : Duration) (deadline : Time) (w : World) :
  let states := loopStates env fuel deviceCode (mkPollState delay deadline) w in
  (forall a st_a, (a <= fuel)%nat ->
     fst (pollAccessToken env a deviceCode delay deadline w) = Running st_a ->
     nth_error states a = Some st_a) /\
  Forall (fun st => expiresAt st = deadline) states /\
  (0 <= delay -> doublingsFit states = true ->
   StronglySorted Z.le (map interval states)).
Proof.
  cbv zeta. split; [|split].
  - intros a st_a Ha Hrun. now apply loopStates_nth.
  - exact (loopStates_deadline env deviceCode fuel (mkPollState delay deadline) w).
  - intros Hpos Hfit. apply Sorted_StronglySorted.
    + intros x y z. apply Z.le_trans.
    + now apply loopStates_sorted.
Qed.

(** Forty pending answers leave the 6 seconds as they are; a slow-down among
    pending answers doubles them once. *)
Lemma interval_never_shrinks_witness :
  let pending := scripted [] (errorBody "authorization_pending") 0 in
  let mixed := scripted [errorBody "authorization_pending"; errorBody "slow_down"]
                 (errorBody "authorization_pending") 0 in
  StronglySorted Z.le
    (map interval (loopStates pending 40 "D" (mkPollState (6 * Second) (900 * Second))
                     genesis)) /\
  map interval (loopStates pending 40 "D" (mkPollState (6 * Second) (900 * Second)) genesis)
    = repeat (6 * Second) 41 /\
  StronglySorted Z.le
    (map interval (loopStates mixed 3 "D" (mkPollState (6 * Second) (900 * Second))
                     genesis)) /\
  map interval (loopStates mixed 3 "D" (mkPollState (6 * Second) (900 * Second)) genesis)
    = [6 * Second; 6 * Second; 12 * Second; 12 * Second].
Proof.
  intros pending mixed.
  split; [|split; [|split]].
  - apply (interval_never_shrinks pending 40 "D" (6 * Second) (900 * Second) genesis).
    + vm_compute. discriminate.
    + vm_compute. reflexivity.
  - vm_compute. reflexivity.
  - apply (interval_never_shrinks mixed 3 "D" (6 * Second) (900 * Second) genesis).
    + vm_compute. discriminate.
    + vm_compute. reflexivity.
  - vm_compute. reflexivity.
Defined.

(** ** Decoding the device code *)

Section Object.

Context {T : Type} (fields : list (json.field T)) (zero : T).

(** Whether a value fits a field does not depend on the struct. *)
Hypothesis uniform : forall f item v v',
  In f fields -> json.store f item v = None -> json.store f item v' = None.

Lemma object_saved (ms : list (string * json.value)) (v : T) (e : error) :
  snd (json.object fields ms v (Some e)) = Some e.
Proof.
  revert v. induction ms as [|[key item] ms IH]; intros v; [reflexivity|].
  cbn [json.object]. destruct (find _ fields) as [f|]; [|apply IH].
  destruct (json.store f item v); apply IH.
Qed.

Lemma object_fits (ms : list (string * json.value)) (v : T) (saved : option error) :
  forallb (fits fields zero) ms = true ->
  snd (json.object fields ms v saved) = saved.
Proof.
  revert v. induction ms as [|[key item] ms IH]; intros v; [reflexivity|].
  cbn [forallb json.object]. rewrite andb_true_iff. unfold fits at 1. cbn [fst snd].
  intros [Hm Hms].
  destruct (find _ fields) as [f|] eqn:Hfind; [|exact (IH v Hms)].
  destruct (json.store f item v) eqn:Hstore; [exact (IH _ Hms)|].
  apply find_some in Hfind as [Hin _].
  now rewrite (uniform f item v zero Hin Hstore) in Hm.
Qed.

Lemma object_misfit (ms : list (string * json.value)) (v : T) (saved : option error) :
  forallb (fits fields zero) ms = false ->
  snd (json.object fields ms v saved) <> None.
Proof.
  revert v saved. induction ms as [|[key item] ms IH]; intros v saved; [discriminate|].
  cbn [forallb json.object]. rewrite andb_false_iff. unfold fits at 1. cbn [fst snd].
  intros Hms.
  destruct (find _ fields) as [f|] eqn:Hfind.
  - destruct (json.store f item v) eqn:Hstore.
    + destruct Hms as [Hm | Hms]; [|exact (IH _ _ Hms)].
      destruct (json.store f item zero) eqn:Hzero; [discriminate|].
      apply find_some in Hfind as [Hin _].
      now rewrite (uniform f item zero v Hin Hzero) in Hstore.
    + destruct saved as [e|]; cbn [json.saveError]; rewrite object_saved; discriminate.
  - destruct Hms as [Hm | Hms]; [discriminate | exact (IH _ _ Hms)].
Qed.

(** A part of the struct that only the field [name] writes keeps its
    value when no member is matched with [name]. *)
Lemma object_untouched {A : Type} (proj : T -> A) (name : string) :
  (forall f item v v', In f fields -> json.tag f <> name ->
     json.store f item v = Some v' -> proj v' = proj v) ->
  forall ms v saved,
    mentions name ms = false ->
    proj (fst (json.object fields ms v saved)) = proj v.
Proof.
  intros Hother. induction ms as [|[key item] ms IH]; intros v saved; [reflexivity|].
  cbn [mentions existsb fst json.object]. rewrite orb_false_iff.
  intros [Hkey Hms]. fold (mentions name ms) in Hms.
  destruct (find _ fields) as [f|] eqn:Hfind; [|exact (IH _ _ Hms)].
  destruct (json.store f item v) as [v'|] eqn:Hstore; [|exact (IH _ _ Hms)].
  rewrite (IH _ _ Hms).
  apply find_some in Hfind as [Hin Htag].
  apply String.eqb_eq in Htag. apply String.eqb_neq in Hkey.
  apply (Hother f item v v' Hin); congruence.
Qed.

End Object.

Lemma deviceCodeFields_uniform (f : json.field deviceCodeResponse)
    (item : json.value) (v v' : deviceCodeResponse) :
  In f deviceCodeFields -> json.store f item v = None -> json.store f item v' = None.
Proof.
  intros Hin.
  repeat (destruct Hin as [<- | Hin]); try contradiction;
    destruct item as [| |[z|]| | |]; cbn; try discriminate; try reflexivity;
    destruct (in_int64 z); try discriminate; reflexivity.
Qed.

Ltac other_field :=
  let Hin := fresh "Hin" in
  let Htag := fresh "Htag" in
  intros ? item ? ? Hin Htag;
  repeat (destruct Hin as [<- | Hin]); try contradiction;
  try (exfalso; apply Htag; reflexivity);
  destruct item as [| |[z|]| | |]; cbn; try discriminate;
  try (destruct (in_int64 z); try discriminate);
  intros [= <-]; reflexivity.

(** What [postDeviceCode] returns for a body. *)
Lemma postDeviceCode_eq (env : Env) (w : World) (body : json.Body) :
  serve env (requests (trace w)) deviceCodeRequest = inr body ->
  fst (postDeviceCode env w) =
    match json.Unmarshal deviceCodeFields body zeroDeviceCodeResponse with
    | (_, Some e) => (None, Some e)
    | (res, None) => (Some res, None)
    end.
Proof.
  intros Hserve. unfold postDeviceCode, bind, post, effect.
  fold deviceCodeRequest. rewrite Hserve.
  destruct (json.Unmarshal _ _ _) as [res [e|]]; reflexivity.
Qed.

(** C8, as the code has it.  [postDeviceCode] returns the error of the JSON
    decoder, and no grant, when the body is not JSON, when it is a JSON value
    other than an object or [null], and when it is an object with a member
    that is matched with a field and does not fit its Go type.  Otherwise it
    returns a grant and no error, whether the five fields are there or not:
    a field no member is matched with has its zero value in the grant, the
    empty string or 0. *)
Theorem postDeviceCode_decodes (env : Env) (w : World) (body : json.Body) :
  serve env (requests (trace w)) deviceCodeRequest = inr body ->
  match body with
  | json.Invalid => fst (postDeviceCode env w) = (None, Some SyntaxError)
  | json.Doc json.Null => fst (postDeviceCode env w) = (Some zeroDeviceCodeResponse, None)
  | json.Doc (json.Object members) =>
    if forallb (fits deviceCodeFields zeroDeviceCodeResponse) members
    then exists grant,
      fst (postDeviceCode env w) = (Some grant, None) /\
      (mentions "device_code" members = false -> DeviceCode grant = "") /\
      (mentions "user_code" members = false -> UserCode grant = "") /\
      (mentions "verification_uri" members = false -> VerificationURI grant = "") /\
      (mentions "expires_in" members = false -> ExpiresIn grant = 0) /\
      (mentions "interval" members = false -> Interval grant = 0)
    else exists e, fst (postDeviceCode env w) = (None, Some e)
  | json.Doc _ => exists e, fst (postDeviceCode env w) = (None, Some e)
  end.
Proof.
  intros Hserve. rewrite (postDeviceCode_eq env w body Hserve).
  destruct body as [|[| | | | |members]]; cbn [json.Unmarshal]; eauto.
  destruct (forallb _ members) eqn:Hfits.
  - pose proof (object_fits deviceCodeFields zeroDeviceCodeResponse
                  deviceCodeFields_uniform members zeroDeviceCodeResponse None Hfits) as Herr.
    destruct (json.object deviceCodeFields members zeroDeviceCodeResponse None)
      as [grant err] eqn:Hobj.
    cbn [snd] in Herr. subst err. exists grant. split; [reflexivity|].
    replace grant with
      (fst (json.object deviceCodeFields members zeroDeviceCodeResponse None))
      by now rewrite Hobj.
    repeat split; intros Hmissing.
    + apply (object_untouched deviceCodeFields DeviceCode "device_code");
        [other_field | exact Hmissing].
    + apply (object_untouched deviceCodeFields UserCode "user_code");
        [other_field | exact Hmissing].
    + apply (object_untouched deviceCodeFields VerificationURI "verification_uri");
        [other_field | exact Hmissing].
    + apply (object_untouched deviceCodeFields ExpiresIn "expires_in");
        [other_field | exact Hmissing].
    + apply (object_untouched deviceCodeFields Interval "interval");
        [other_field | exact Hmissing].
  - pose proof (object_misfit deviceCodeFields zeroDeviceCodeResponse
                  deviceCodeFields_uniform members zeroDeviceCodeResponse None Hfits) as Herr.
    destruct (json.object deviceCodeFields members zeroDeviceCodeResponse None)
      as [grant [e|]]; [eauto | now elim Herr].
Qed.

(** A device-code response that has the two codes only: a grant with no
    verification URI, no time to live and no interval. *)
Lemma postDeviceCode_decodes_witness :
  let body := stringObject [("device_code", "D"); ("user_code", "ABCD-1234")] in
  let env := scripted [body] tokenBody 0 in
  exists grant,
    fst (postDeviceCode env genesis) = (Some grant, None) /\
    VerificationURI grant = "" /\ ExpiresIn grant = 0 /\ Interval grant = 0.
Proof.
  intros body env.
  pose proof (postDeviceCode_decodes env genesis body eq_refl) as Hdec.
  cbn [body stringObject map fst snd] in Hdec.
  change (forallb _ _) with true in Hdec. cbv iota in Hdec.
  destruct Hdec as (grant & Hgrant & _ & _ & Huri & Hexpires & Hinterval).
  exists grant. split; [exact Hgrant|].
  split; [apply Huri | split; [apply Hexpires | apply Hinterval]]; reflexivity.
Defined.

(** C8, as the specification has it, fails: missing fields are no error.
    For the body [{}], in which all five fields are missing,
    [postDeviceCode] returns a grant, all of whose fields are zero, and no
    error; [run] then polls with it, every second, the deadline being the
    instant the device code was asked for. *)
Lemma missing_fields_are_no_error :
  let env := scripted [json.Doc (json.Object [])] (errorBody "authorization_pending") 0 in
  mentions "device_code" [] = false /\
  fst (postDeviceCode env genesis) = (Some zeroDeviceCodeResponse, None) /\
  eventsSince genesis (snd (run env 1 genesis))
    = [EvNow 0; EvPost deviceCodeRequest 0;
       EvPrint ("Open  in your browser and enter this code:" ++ newline)%string;
       EvPrint newline;
       EvSleep (1 * Second); EvNow (1 * Second)] /\
  fst (run env 1 genesis) = Some (Returned (Some errExpired)).
Proof. repeat split; vm_compute; reflexivity. Qed.

(** ** Two runs, effect by effect *)

(** Called one second after the deadline, the poller sleeps its 6 seconds,
    reads the clock and gives up, without a request. *)
Example expired_on_entry :
  pollAccessToken (scripted [] tokenBody 0) 10 "D" (6 * Second) (900 * Second)
    (mkWorld (901 * Second) [])
  = (Finished None (Some errExpired),
     mkWorld (907 * Second) [EvSleep (6 * Second); EvNow (907 * Second)]).
Proof. vm_compute. reflexivity. Qed.

(** The deadline passes while the poller sleeps between two requests: the
    second request is not made. *)
Example expired_between_requests :
  let env := scripted [] (errorBody "authorization_pending") 0 in
  pollAccessToken env 10 "D" (6 * Second) (10 * Second) genesis
  = (Finished None (Some errExpired),
     mkWorld (12 * Second)
       [EvSleep (6 * Second); EvNow (6 * Second); EvPost (tokenRequest "D") (6 * Second);
        EvSleep (6 * Second); EvNow (12 * Second)]).
Proof. vm_compute. reflexivity. Qed.

(** ** What [postAccessToken] can return *)

Lemma decodeAccessToken_cases (body : json.Body) :
  (exists res, decodeAccessToken body = (Some res, None, None) /\ AccessToken res <> "") \/
  (exists e, decodeAccessToken body = (None, Some e, None) /\ Error e <> "") \/
  (exists err, decodeAccessToken body = (None, None, err)).
Proof.
  unfold decodeAccessToken.
  destruct (json.Unmarshal accessTokenFields body _) as [res err].
  destruct (json.Unmarshal accessTokenErrorFields body _) as [e err'].
  destruct (String.eqb (AccessToken res) "") eqn:Hres;
    destruct (String.eqb (Error e) "") eqn:He;
    apply String.eqb_eq in Hres || apply String.eqb_neq in Hres;
    apply String.eqb_eq in He || apply String.eqb_neq in He;
    destruct err, err'; cbn [andb negb]; eauto 6.
Qed.

Lemma tokenAnswer_cases (r : error + json.Body) :
  (exists res, tokenAnswer r = (Some res, None, None) /\ AccessToken res <> "") \/
  (exists e, tokenAnswer r = (None, Some e, None) /\ Error e <> "") \/
  (exists err, tokenAnswer r = (None, None, err)).
Proof.
  destruct r as [err|body]; [|apply decodeAccessToken_cases].
  right; right. cbn. eauto.
Qed.

Lemma postAccessToken_eq (env : Env) (deviceCode : string) (w : World) :
  postAccessToken env deviceCode w =
    (tokenAnswer (serve env (requests (trace w)) (tokenRequest deviceCode)),
     mkWorld (clock w + 0 + Z.of_N (lag env (List.length (trace w))))
             (trace w ++ [EvPost (tokenRequest deviceCode) (clock w)])).
Proof.
  unfold postAccessToken, bind, post, effect, ret. fold (tokenRequest deviceCode).
  destruct (serve env _ _); reflexivity.
Qed.

(** X1.  [postAccessToken] posts once and returns at most one thing: a
    response whose access token is not empty, or an error payload whose code
    is not empty, or an error (or nothing at all), never two of them. *)
Theorem postAccessToken_returns_one (env : Env) (deviceCode : string) (w : World) :
  trace (snd (postAccessToken env deviceCode w))
    = trace w ++ [EvPost (tokenRequest deviceCode) (clock w)] /\
  ((exists res, fst (postAccessToken env deviceCode w) = (Some res, None, None)
                /\ AccessToken res <> "") \/
   (exists e, fst (postAccessToken env deviceCode w) = (None, Some e, None)
              /\ Error e <> "") \/
   (exists err, fst (postAccessToken env deviceCode w) = (None, None, err))).
Proof.
  rewrite postAccessToken_eq. cbn [fst snd trace].
  split; [reflexivity | apply tokenAnswer_cases].
Qed.

(** ** How the poller returns *)

Lemma dispatch_Return (st : PollState) r
    (acResp : option accessTokenResponse) (err : option error) :
  dispatch st r = Return acResp err ->
  (acResp = None /\ r = (None, None, err)) \/
  (exists x e, acResp = None /\ err = Some x /\ r = (None, Some e, Some x)) \/
  (exists res x aer, acResp = None /\ err = Some x /\ r = (Some res, aer, Some x)) \/
  (exists e a, acResp = None /\ err = Some (errAuthorization e) /\ r = (a, Some e, None) /\
     Error e <> "authorization_pending" /\ Error e <> "slow_down" /\ Error e <> "") \/
  (exists e, err = None /\ r = (acResp, Some e, None) /\ Error e = "") \/
  (exists res, acResp = Some res /\ err = None /\ r = (Some res, None, None)).
Proof.
  unfold dispatch. destruct r as [[a [e|]] [x|]].
  - intros [= <- <-]. destruct a as [res|]; [right; right; left | right; left]; eauto 10.
  - destruct (String.eqb (Error e) "authorization_pending") eqn:H1; [discriminate|].
    destruct (String.eqb (Error e) "slow_down") eqn:H2; [discriminate|].
    destruct (String.eqb (Error e) "") eqn:H3; cbn [negb]; intros [= <- <-].
    + right; right; right; right; left. exists e. apply String.eqb_eq in H3. auto.
    + right; right; right; left. exists e, a.
      apply String.eqb_neq in H1, H2, H3. auto 10.
  - intros [= <- <-]. destruct a as [res|].
    + right; right; left. eauto 10.
    + left. auto.
  - intros [= <- <-]. destruct a as [res|].
    + right; right; right; right; right. eauto.
    + left. auto.
Qed.

(** Every way the loop has of returning. *)
Lemma pollLoop_Finished (env : Env) (deviceCode : string) (fuel : nat) :
  forall (st : PollState) (w : World)
         (acResp : option accessTokenResponse) (err : option error),
  fst (pollLoop env fuel deviceCode st w) = Finished acResp err ->
  (acResp = None /\ err = Some errExpired) \/
  (exists n, acResp = None /\
     tokenAnswer (serve env n (tokenRequest deviceCode)) = (None, None, err)) \/
  (exists n e, acResp = None /\ err = Some (errAuthorization e) /\
     tokenAnswer (serve env n (tokenRequest deviceCode)) = (None, Some e, None) /\
     Error e <> "authorization_pending" /\ Error e <> "slow_down" /\ Error e <> "") \/
  (exists n res, acResp = Some res /\ err = None /\
     tokenAnswer (serve env n (tokenRequest deviceCode)) = (Some res, None, None) /\
     AccessToken res <> "").
Proof.
  induction fuel as [|fuel IH]; intros st w acResp err; [discriminate|].
  rewrite pollLoop_S, pollOnce_eq. cbv zeta.
  destruct (After _ _).
  { cbn [fst]. intros [= <- <-]. auto. }
  destruct (dispatch st _) as [st'|a x] eqn:Hd; [apply IH|].
  cbn [fst]. intros [= <- <-].
  set (n := requests (trace w)) in *.
  destruct (tokenAnswer_cases (serve env n (tokenRequest deviceCode)))
    as [(res & Hans & Hres) | [(e & Hans & He) | (err' & Hans)]];
    rewrite Hans in Hd;
    apply dispatch_Return in Hd
      as [[-> Hr] | [(y & e' & _ & _ & Hr) | [(res' & y & aer & _ & _ & Hr)
         | [(e' & a' & -> & -> & Hr & H1 & H2 & H3) | [(e' & _ & Hr & He')
         | (res' & -> & -> & Hr)]]]]];
    try discriminate.
  - injection Hr as <-. right; right; right. eauto 10.
  - injection Hr as <- <-. right; right; left. eauto 10.
  - injection Hr as <-. congruence.
  - injection Hr as <-. right; left. eauto.
Qed.

(** X2.  A payload comes alone.  When [pollAccessToken] returns a
    response, it returns no error with it, the response is the success payload
    the server gave to one of the token requests, and its access token is not
    empty. *)
Theorem poller_payload_has_token (env : Env) (fuel : nat) (deviceCode : string)
    (delay : Duration) (deadline : Time) (w : World)
    (res : accessTokenResponse) (err : option error) :
  fst (pollAccessToken env fuel deviceCode delay deadline w) = Finished (Some res) err ->
  err = None /\ AccessToken res <> "" /\
  exists n, tokenAnswer (serve env n (tokenRequest deviceCode)) = (Some res, None, None).
Proof.
  unfold pollAccessToken. intros Hrun.
  destruct (pollLoop_Finished env deviceCode fuel _ _ _ _ Hrun)
    as [[H _] | [(n & H & _) | [(n & e & H & _) | (n & res' & H & -> & Hans & Hres)]]];
    try discriminate.
  injection H as ->. eauto.
Qed.

Lemma poller_payload_has_token_witness :
  let env := scripted [errorBody "slow_down"] tokenBody 0 in
  AccessToken (mkAccessTokenResponse "tok123" "bearer" "") <> "" /\
  exists n,
    tokenAnswer (serve env n (tokenRequest "D"))
      = (Some (mkAccessTokenResponse "tok123" "bearer" ""), None, None).
Proof.
  intros env.
  destruct (poller_payload_has_token env 5 "D" (6 * Second) (900 * Second) genesis
              (mkAccessTokenResponse "tok123" "bearer" "") None) as (_ & Htok & Hans).
  - vm_compute. reflexivity.
  - split; assumption.
Defined.

(** X3.  The errors of the poller.  When [pollAccessToken] returns an
    error, it is the expiry error, or the error of a token request (of the
    transport, or of decoding the body), or the error made of an error payload
    of the server whose code is not empty and is neither
    [authorization_pending] nor [slow_down]: these two codes are never
    reported. *)
Theorem poller_errors (env : Env) (fuel : nat) (deviceCode : string)
    (delay : Duration) (deadline : Time) (w : World)
    (acResp : option accessTokenResponse) (x : error) :
  fst (pollAccessToken env fuel deviceCode delay deadline w) = Finished acResp (Some x) ->
  acResp = None /\
  (x = errExpired \/
   (exists n, tokenAnswer (serve env n (tokenRequest deviceCode)) = (None, None, Some x)) \/
   (exists n e, x = errAuthorization e /\
      tokenAnswer (serve env n (tokenRequest deviceCode)) = (None, Some e, None) /\
      Error e <> "authorization_pending" /\ Error e <> "slow_down" /\ Error e <> "")).
Proof.
  unfold pollAccessToken. intros Hrun.
  destruct (pollLoop_Finished env deviceCode fuel _ _ _ _ Hrun)
    as [[-> H] | [(n & -> & H) | [(n & e & -> & H & Hans) | (n & res' & _ & H & _)]]];
    try discriminate; (split; [reflexivity|]).
  - injection H as ->. auto.
  - eauto.
  - injection H as ->. right; right. eauto.
Qed.

Lemma poller_errors_witness :
  let env := scripted [errorBody "authorization_pending"] (errorBody "access_denied") 0 in
  errorString "access_denied  " = errExpired \/
  (exists n, tokenAnswer (serve env n (tokenRequest "D"))
               = (None, None, Some (errorString "access_denied  "))) \/
  (exists n e, errorString "access_denied  " = errAuthorization e /\
     tokenAnswer (serve env n (tokenRequest "D")) = (None, Some e, None) /\
     Error e <> "authorization_pending" /\ Error e <> "slow_down" /\ Error e <> "").
Proof.
  intros env.
  destruct (poller_errors env 5 "D" (6 * Second) (900 * Second) genesis None
              (errorString "access_denied  ")) as [_ H].
  - vm_compute. reflexivity.
  - exact H.
Defined.

(** X4.  A failed request is not retried.  Whatever came before, when the
    deadline has not passed and the token request fails in the transport, or
    its answer is not JSON, the poller returns that error in that pass: one
    request and nothing after it. *)
Theorem failed_request_stops_polling (env : Env) (passes more : nat) (deviceCode : string)
    (delay : Duration) (deadline : Time) (w0 : World)
    (st : PollState) (w : World) (x : error) :
  pollAccessToken env passes deviceCode delay deadline w0 = (Running st, w) ->
  serve env (requests (trace w)) (tokenRequest deviceCode) = inl x \/
  (serve env (requests (trace w)) (tokenRequest deviceCode) = inr json.Invalid /\
   x = SyntaxError) ->
  wakeUp env (interval st) w <= expiresAt st ->
  pollAccessToken env (passes + S more) deviceCode delay deadline w0
    = (Finished None (Some x), passed env deviceCode st w) /\
  eventsSince w (passed env deviceCode st w)
    = [EvSleep (interval st); EvNow (wakeUp env (interval st) w);
       EvPost (tokenRequest deviceCode) (wakeUp env (interval st) w)].
Proof.
  unfold pollAccessToken. intros Hbefore Hserve Ht.
  split; [|apply eventsSince_passed].
  rewrite pollLoop_add, Hbefore, (pollLoop_S_posted _ _ _ _ _ Ht).
  destruct Hserve as [-> | [-> ->]]; reflexivity.
Qed.

(** The network goes down after two pending answers. *)
Lemma failed_request_stops_polling_witness :
  let env := mkEnv (fun n _ => if Nat.ltb n 2 then inr (errorBody "authorization_pending")
                               else inl (TransportError "connection refused"))
               (fun _ => 0%N) in
  fst (pollAccessToken env 10 "D" (6 * Second) (900 * Second) genesis)
    = Finished None (Some (TransportError "connection refused")) /\
  requests (trace (snd (pollAccessToken env 10 "D" (6 * Second) (900 * Second) genesis)))
    = 3%nat.
Proof.
  intros env.
  destruct (failed_request_stops_polling env 2 7 "D" (6 * Second) (900 * Second) genesis
              (mkPollState (6 * Second) (900 * Second))
              (snd (pollAccessToken env 2 "D" (6 * Second) (900 * Second) genesis))
              (TransportError "connection refused")) as [Hres _].
  - vm_compute. reflexivity.
  - left. vm_compute. reflexivity.
  - vm_compute. discriminate.
  - change (2 + 8)%nat with 10%nat in Hres. rewrite Hres. split; reflexivity.
Defined.

(** ** The poller returns *)

Lemma pollLoop_returns (env : Env) (deviceCode : string) (d : Duration) (start : Time)
    (n : nat) :
  forall (st : PollState) (w : World),
  0 < d <= interval st ->
  interval st <= d + (clock w - start) ->
  d + (expiresAt st - start) <= max_int64 ->
  expiresAt st < clock w + Z.of_nat n * d ->
  exists acResp err,
    fst (pollLoop env (S n) deviceCode st w) = Finished acResp err.
Proof.
  induction n as [|n IH]; intros st w Hd Hi Hmax Hlate;
    rewrite pollLoop_S, pollOnce_eq; cbv zeta;
    destruct (After _ _) eqn:Hafter; try (cbn [fst]; eauto; fail);
    apply Z.ltb_ge in Hafter; unfold wakeUp in Hafter.
  - exfalso. cbn in Hlate. lia.
  - destruct (dispatch st _) as [st'|a x] eqn:Hdisp; [|cbn [fst]; eauto].
    apply dispatch_Continue in Hdisp as [Hx Hst'].
    rewrite Nat2Z.inj_succ, Z.mul_succ_l in Hlate.
    assert (Hdouble : mul64 (interval st) 2 = interval st * 2).
    { apply wrap64_small. unfold min_int64. lia. }
    rewrite Hdouble in Hst'.
    apply IH; cbn [clock]; unfold wakeUp; rewrite ?Hx; lia.
Qed.

(** X5.  With a positive interval the poller returns.  When the interval
    is positive and the deadline is near enough for the interval not to
    overflow on the way ([interval + (expiresAt - now)] fits an [int64]), and
    [n] intervals from now is past the deadline, [pollAccessToken] has
    returned after at most [n + 1] passes, whatever the server answers and
    however long anything takes. *)
Theorem poller_returns_by_deadline (env : Env) (n : nat) (deviceCode : string)
    (delay : Duration) (deadline : Time) (w : World) :
  0 < delay ->
  delay + (deadline - clock w) <= max_int64 ->
  deadline < clock w + Z.of_nat n * delay ->
  exists acResp err,
    fst (pollAccessToken env (S n) deviceCode delay deadline w) = Finished acResp err.
Proof.
  intros Hpos Hmax Hlate. unfold pollAccessToken.
  apply (pollLoop_returns env deviceCode delay (clock w)); cbn [interval expiresAt]; lia.
Qed.

(** Every answer is [authorization_pending]: 900 seconds, every 6 seconds,
    are over after 151 passes. *)
Lemma poller_returns_by_deadline_witness :
  exists acResp err,
    fst (pollAccessToken (scripted [] (errorBody "authorization_pending") 0) 152 "D"
           (6 * Second) (900 * Second) genesis)
      = Finished acResp err.
Proof.
  apply (poller_returns_by_deadline _ 151); vm_compute; congruence.
Defined.

(** ** The pace of the requests *)

(** The effects of a run of [S fuel] passes, pass by pass. *)
Lemma pollLoop_S_events (env : Env) (fuel : nat) (deviceCode : string)
    (st : PollState) (w : World) :
  eventsSince w (snd (pollLoop env (S fuel) deviceCode st w)) =
    let t := wakeUp env (interval st) w in
    if After t (expiresAt st)
    then [EvSleep (interval st); EvNow t]
    else [EvSleep (interval st); EvNow t; EvPost (tokenRequest deviceCode) t] ++
         match dispatch st (tokenAnswer (serve env (requests (trace w))
                                           (tokenRequest deviceCode))) with
         | Continue st' =>
           eventsSince (passed env deviceCode st w)
             (snd (pollLoop env fuel deviceCode st' (passed env deviceCode st w)))
         | Return _ _ => []
         end.
Proof.
  rewrite pollLoop_S, pollOnce_eq. cbv zeta.
  destruct (After _ _).
  - apply eventsSince_app. reflexivity.
  - fold (passed env deviceCode st w).
    destruct (dispatch st _) as [st'|a x].
    + apply eventsSince_app. rewrite pollLoop_eventsSince.
      unfold passed at 1. cbn [trace]. now rewrite <- app_assoc.
    + apply eventsSince_app. reflexivity.
Qed.

Lemma clock_passed (env : Env) (deviceCode : string) (st : PollState) (w : World) :
  wakeUp env (interval st) w <= clock (passed env deviceCode st w).
Proof. unfold passed. cbn [clock]. lia. Qed.

(** A run starts with a sleep that lasts its time. *)
Lemma pollLoop_first_events (env : Env) (fuel : nat) (deviceCode : string)
    (st : PollState) (w : World) (d : Duration) (t : Time) (rest : list Event) :
  eventsSince w (snd (pollLoop env fuel deviceCode st w)) = EvSleep d :: EvNow t :: rest ->
  clock w + Z.max 0 d <= t.
Proof.
  destruct fuel as [|fuel].
  - cbn [pollLoop ret snd]. unfold eventsSince. rewrite skipn_all. discriminate.
  - rewrite pollLoop_S_events. cbv zeta.
    destruct (After _ _); intros [= <- <- _]; unfold wakeUp; lia.
Qed.

Lemma pollLoop_paced (env : Env) (deviceCode : string) (fuel : nat) :
  forall (st : PollState) (w : World) pre req t1 d t2 post,
  eventsSince w (snd (pollLoop env fuel deviceCode st w))
    = pre ++ EvPost req t1 :: EvSleep d :: EvNow t2 :: post ->
  t1 + Z.max 0 d <= t2.
Proof.
  induction fuel as [|fuel IH]; intros st w pre req t1 d t2 post.
  - cbn [pollLoop ret snd]. unfold eventsSince. rewrite skipn_all.
    destruct pre; discriminate.
  - rewrite pollLoop_S_events. cbv zeta.
    destruct (After _ _).
    { destruct pre as [|e1 [|e2 [|e3 pre]]]; discriminate. }
    destruct (dispatch st _) as [st'|a x].
    + destruct pre as [|e1 [|e2 [|e3 pre]]]; try discriminate; cbn [app].
      * intros [= _ _ _ <- Hrest].
        apply pollLoop_first_events in Hrest.
        pose proof (clock_passed env deviceCode st w). lia.
      * intros [= _ _ _ Hrest]. exact (IH _ _ _ _ _ _ _ _ Hrest).
    + destruct pre as [|e1 [|e2 [|e3 [|e4 pre]]]]; discriminate.
Qed.

(** X6.  The poller keeps the pace.  In any run of [pollAccessToken], the
    first reading of the clock comes no sooner than the interval after the
    call, and a reading of the clock that follows a token request comes no
    sooner after the instant the request was sent than the interval slept
    between them: by C1 the next request is sent at that reading, so two
    requests in a row are at least the interval apart. *)
Theorem requests_are_paced (env : Env) (fuel : nat) (deviceCode : string)
    (delay : Duration) (deadline : Time) (w : World) :
  let evs := eventsSince w (snd (pollAccessToken env fuel deviceCode delay deadline w)) in
  (forall d t rest, evs = EvSleep d :: EvNow t :: rest ->
     d = delay /\ clock w + Z.max 0 delay <= t) /\
  (forall pre req t1 d t2 post,
     evs = pre ++ EvPost req t1 :: EvSleep d :: EvNow t2 :: post ->
     t1 + Z.max 0 d <= t2).
Proof.
  unfold pollAccessToken. split.
  - intros d t rest Hevs.
    pose proof (pollLoop_first_events _ _ _ _ _ _ _ _ Hevs) as Ht.
    assert (Hd : d = delay); [|subst d; auto].
    destruct fuel as [|fuel].
    + cbn [pollLoop ret snd] in Hevs. unfold eventsSince in Hevs.
      rewrite skipn_all in Hevs. discriminate.
    + rewrite pollLoop_S_events in Hevs. cbv zeta in Hevs.
      destruct (After _ _); now injection Hevs as <- _.
  - intros pre req t1 d t2 post Hevs. exact (pollLoop_paced _ _ _ _ _ _ _ _ _ _ _ Hevs).
Qed.

(** ** Sequences of pending and slow-down answers *)

Lemma slowDowns_cons (c : string) (codes : list string) :
  Z.of_nat (slowDowns (c :: codes)) =
    (if String.eqb c "slow_down" then 1 else 0) + Z.of_nat (slowDowns codes).
Proof.
  unfold slowDowns. cbn [filter].
  destruct (String.eqb c "slow_down"); cbn [List.length]; lia.
Qed.

Lemma keep_polling_passes (env : Env) (deviceCode : string) (codes : list string) :
  forall (st : PollState) (w : World),
  min_int64 <= interval st <= max_int64 ->
  Forall (fun c => c = "authorization_pending" \/ c = "slow_down") codes ->
  (forall j, (j < List.length codes)%nat ->
     answersError env (requests (trace w) + j) (nth j codes "")) ->
  withinDeadline (expiresAt st)
    (eventsSince w (snd (pollLoop env (List.length codes) deviceCode st w))) = true ->
  fst (pollLoop env (List.length codes) deviceCode st w)
    = Running (mkPollState (wrap64 (interval st * 2 ^ Z.of_nat (slowDowns codes)))
                           (expiresAt st)) /\
  requests (trace (snd (pollLoop env (List.length codes) deviceCode st w)))
    = (requests (trace w) + List.length codes)%nat.
Proof.
  induction codes as [|c codes IH]; intros st w Hrange Hcodes Hans Hin.
  - cbn [List.length pollLoop ret fst snd]. change (2 ^ Z.of_nat (slowDowns [])) with 1.
    rewrite Z.mul_1_r, wrap64_small by exact Hrange.
    destruct st; split; [reflexivity | lia].
  - cbn [List.length] in *.
    destruct (pollLoop_S_within env _ deviceCode st w Hin) as [Ht Hpass].
    destruct (Hans O ltac:(lia) (tokenRequest deviceCode)) as (e & Hanswer & He).
    rewrite Nat.add_0_r in Hanswer. cbn [nth] in He.
    rewrite Hanswer in Hpass.
    inversion Hcodes as [|c' codes' Hc Hrest]; subst c' codes'.
    assert (Hshift : forall j, (j < List.length codes)%nat ->
              answersError env (requests (trace (passed env deviceCode st w)) + j)
                (nth j codes "")).
    { intros j Hj. rewrite requests_passed.
      replace (S (requests (trace w)) + j)%nat with (requests (trace w) + S j)%nat by lia.
      apply (Hans (S j)). lia. }
    rewrite slowDowns_cons.
    destruct Hc as [-> | ->].
    + rewrite (dispatch_pending st e He) in Hpass.
      destruct Hpass as (Hstep & _ & Hin').
      destruct (IH st _ Hrange Hrest Hshift Hin') as [Hres Hreq].
      rewrite Hstep, Hres, Hreq, requests_passed.
      change (String.eqb "authorization_pending" "slow_down") with false.
      cbv iota. rewrite Z.add_0_l. split; [reflexivity | lia].
    + rewrite (dispatch_slow_down st e He) in Hpass.
      destruct Hpass as (Hstep & _ & Hin').
      set (st' := mkPollState (mul64 (interval st) 2) (expiresAt st)) in *.
      destruct (IH st' _ (wrap64_range _) Hrest Hshift Hin') as [Hres Hreq].
      rewrite Hstep, Hres, Hreq, requests_passed. split; [|lia].
      change (String.eqb "slow_down" "slow_down") with true. cbv iota.
      unfold st', mul64. cbn [interval expiresAt].
      rewrite wrap64_mul_l, Z.pow_add_r by lia.
      do 3 f_equal. ring.
Qed.

(** X7.  Pending and slow-down answers, in any order.  When the next
    token requests are answered by error payloads with the codes of a list,
    each of them [authorization_pending] or [slow_down], and every reading of
    the clock in these passes is within the deadline, then after them the loop
    is back at its top, it has posted once per code, the deadline is unchanged
    and the interval has been doubled (in 64-bit arithmetic) once for every
    [slow_down] of the list and not otherwise. *)
Theorem pending_and_slow_down (env : Env) (codes : list string) (deviceCode : string)
    (delay : Duration) (deadline : Time) (w : World) :
  min_int64 <= delay <= max_int64 ->
  Forall (fun c => c = "authorization_pending" \/ c = "slow_down") codes ->
  (forall j, (j < List.length codes)%nat ->
     answersError env (requests (trace w) + j) (nth j codes "")) ->
  withinDeadline deadline
    (eventsSince w (snd (pollAccessToken env (List.length codes) deviceCode
                           delay deadline w))) = true ->
  fst (pollAccessToken env (List.length codes) deviceCode delay deadline w)
    = Running (mkPollState (wrap64 (delay * 2 ^ Z.of_nat (slowDowns codes))) deadline) /\
  requests (trace (snd (pollAccessToken env (List.length codes) deviceCode
                          delay deadline w)))
    = (requests (trace w) + List.length codes)%nat.
Proof.
  intros Hrange Hcodes Hans Hin. unfold pollAccessToken in *.
  exact (keep_polling_passes env deviceCode codes (mkPollState delay deadline) w
           Hrange Hcodes Hans Hin).
Qed.

(** Pending, slow down, pending, slow down: from 6 to 24 seconds. *)
Lemma pending_and_slow_down_witness :
  let codes := ["authorization_pending"; "slow_down"; "authorization_pending"; "slow_down"] in
  let env := scripted (map errorBody codes) tokenBody 0 in
  fst (pollAccessToken env 4 "D" (6 * Second) (900 * Second) genesis)
    = Running (mkPollState (24 * Second) (900 * Second)) /\
  requests (trace (snd (pollAccessToken env 4 "D" (6 * Second) (900 * Second) genesis)))
    = 4%nat.
Proof.
  intros codes env.
  destruct (pending_and_slow_down env codes "D" (6 * Second) (900 * Second) genesis)
    as [Hres Hreq].
  - vm_compute. split; discriminate.
  - repeat (apply Forall_cons; [auto|]). apply Forall_nil.
  - intros j Hj req.
    destruct j as [|[|[|[|j]]]]; [eexists; split; reflexivity .. | cbn in Hj; lia].
  - vm_compute. reflexivity.
  - split; [exact Hres | exact Hreq].
Defined.

(** ** The whole run *)

(** [run] when the device code does not come. *)
Lemma run_fails (env : Env) (fuel : nat) (w : World) (x : error) :
  serve env (requests (trace w)) deviceCodeRequest = inl x \/
  (exists body res,
     serve env (requests (trace w)) deviceCodeRequest = inr body /\
     json.Unmarshal deviceCodeFields body zeroDeviceCodeResponse = (res, Some x)) ->
  run env fuel w = (Some (Returned (Some x)), asked env w).
Proof.
  intros Hserve.
  unfold run, bind at 1 2, Now, postDeviceCode, bind at 1, post, effect, asked.
  cbn [fst snd clock trace].
  rewrite requests_app. cbn [requests filter isPost List.length].
  rewrite Nat.add_0_r, <- app_assoc. fold deviceCodeRequest. cbn [app].
  destruct Hserve as [-> | (body & res & -> & ->)]; reflexivity.
Qed.

Lemma reportToken_trace (env : Env) (p : Run) (w : World) :
  trace (snd (reportToken env p w)) =
    trace w ++
    match p with
    | Finished (Some acResp) None =>
      [EvPrint ("access token: " ++ AccessToken acResp ++ newline)%string]
    | _ => []
    end.
Proof.
  destruct p as [[acResp|] [x|] | st];
    cbn [reportToken ret snd trace]; rewrite ?app_nil_r; reflexivity.
Qed.

Lemma posts_app (a b : list Event) : posts (a ++ b) = posts a ++ posts b.
Proof. apply filter_app. Qed.

(** The POSTs of the loop are token requests for its device code. *)
Lemma pollLoop_posts (env : Env) (deviceCode : string) (fuel : nat) :
  forall (st : PollState) (w : World),
  Forall (fun e => exists t, e = EvPost (tokenRequest deviceCode) t)
    (posts (eventsSince w (snd (pollLoop env fuel deviceCode st w)))).
Proof.
  induction fuel as [|fuel IH]; intros st w.
  - cbn [pollLoop ret snd]. unfold eventsSince. rewrite skipn_all. constructor.
  - rewrite pollLoop_S_events. cbv zeta.
    destruct (After _ _); [constructor|].
    rewrite posts_app. cbn [posts filter isPost app].
    constructor; [eauto|].
    destruct (dispatch st _) as [st'|a x]; [apply IH | constructor].
Qed.

(** X8.  Without a device code there is nothing more.  When the request
    for the device code fails in the transport, or its answer does not decode,
    [run] returns that very error, having read the clock and posted once and
    nothing else (no prompt, no sleep, no token request), and [main] panics
    with it. *)
Theorem device_code_failure_ends_run (env : Env) (fuel : nat) (w : World) (x : error) :
  serve env (requests (trace w)) deviceCodeRequest = inl x \/
  (exists body res,
     serve env (requests (trace w)) deviceCodeRequest = inr body /\
     json.Unmarshal deviceCodeFields body zeroDeviceCodeResponse = (res, Some x)) ->
  fst (run env fuel w) = Some (Returned (Some x)) /\
  eventsSince w (snd (run env fuel w))
    = [EvNow (clock w); EvPost deviceCodeRequest (clock w)] /\
  fst (main env fuel w) = Some (PanicError x).
Proof.
  intros Hserve. unfold main, bind. rewrite (run_fails env fuel w x Hserve).
  cbn [fst snd ret]. repeat split. now apply eventsSince_app.
Qed.

(** The device-code endpoint answers with a page that is not JSON. *)
Lemma device_code_failure_ends_run_witness :
  let env := scripted [json.Invalid] tokenBody 0 in
  fst (run env 10 genesis) = Some (Returned (Some SyntaxError)) /\
  eventsSince genesis (snd (run env 10 genesis))
    = [EvNow 0; EvPost deviceCodeRequest 0] /\
  fst (main env 10 genesis) = Some (PanicError SyntaxError).
Proof.
  intros env.
  apply (device_code_failure_ends_run env 10 genesis SyntaxError).
  right. exists json.Invalid, zeroDeviceCodeResponse. split; reflexivity.
Defined.

(** X9.  What [run] posts.  The first POST of [run] is the request for
    the device code, sent at the instant [run] started, and there is no other
    such request.  When the device code does not come, that is the only POST;
    when it comes, every other POST is a token request carrying the device
    code of the answer, the client id and the grant type. *)
Theorem run_posts (env : Env) (fuel : nat) (w : World) :
  exists rest,
    posts (eventsSince w (snd (run env fuel w)))
      = EvPost deviceCodeRequest (clock w) :: rest /\
    match serve env (requests (trace w)) deviceCodeRequest with
    | inl _ => rest = []
    | inr body =>
      match json.Unmarshal deviceCodeFields body zeroDeviceCodeResponse with
      | (_, Some _) => rest = []
      | (dc, None) =>
        Forall (fun e => exists t,
                  e = EvPost (mkRequest accessTokenUrl
                                [("client_id", oauthClientId);
                                 ("device_code", DeviceCode dc);
                                 ("grant_type", grantType)]) t) rest
      end
    end.
Proof.
  destruct (serve env (requests (trace w)) deviceCodeRequest) as [x|body] eqn:Hserve.
  { rewrite (run_fails env fuel w x) by auto.
    exists []. split; [|reflexivity].
    cbn [snd]. erewrite eventsSince_app by reflexivity. reflexivity. }
  destruct (json.Unmarshal deviceCodeFields body zeroDeviceCodeResponse)
    as [dc [x|]] eqn:Hdec.
  { rewrite (run_fails env fuel w x) by eauto.
    exists []. split; [|reflexivity].
    cbn [snd]. erewrite eventsSince_app by reflexivity. reflexivity. }
  destruct (run_polls env fuel w body dc Hserve Hdec) as (w2 & Hrun & _ & Htrace).
  rewrite Hrun. unfold bind, pollAccessToken.
  set (st := mkPollState _ _).
  pose proof (pollLoop_posts env (DeviceCode dc) fuel st w2) as Hposts.
  pose proof (pollLoop_eventsSince env fuel (DeviceCode dc) st w2) as Hpoll.
  destruct (pollLoop env fuel (DeviceCode dc) st w2) as [p w3].
  cbn [snd] in *.
  exists (posts (eventsSince w2 w3)). split; [|exact Hposts].
  erewrite eventsSince_app
    by (rewrite reportToken_trace, Hpoll, Htrace, <- !app_assoc; reflexivity).
  rewrite !posts_app. cbn [posts filter isPost app].
  destruct p as [[acResp|] [y|] | st']; cbn [filter isPost]; now rewrite ?app_nil_r.
Qed.

(** X10.  [main] returns only with a token.  When [main] returns without
    a panic, the last thing the program did was to print the line
    [access token: ...] with the access token of a success payload the server
    gave to a token request, and that token is not empty. *)
Theorem main_returns_with_token (env : Env) (fuel : nat) (w : World) :
  fst (main env fuel w) = Some Exited ->
  exists before res n deviceCode,
    trace (snd (main env fuel w))
      = before ++ [EvPrint ("access token: " ++ AccessToken res ++ newline)%string] /\
    AccessToken res <> "" /\
    tokenAnswer (serve env n (tokenRequest deviceCode)) = (Some res, None, None).
Proof.
  unfold main, bind.
  destruct (serve env (requests (trace w)) deviceCodeRequest) as [x|body] eqn:Hserve.
  { rewrite (run_fails env fuel w x) by auto. discriminate. }
  destruct (json.Unmarshal deviceCodeFields body zeroDeviceCodeResponse)
    as [dc [x|]] eqn:Hdec.
  { rewrite (run_fails env fuel w x) by eauto. discriminate. }
  destruct (run_polls env fuel w body dc Hserve Hdec) as (w2 & Hrun & _ & _).
  rewrite Hrun. unfold bind, pollAccessToken.
  set (st := mkPollState _ _).
  pose proof (pollLoop_Finished env (DeviceCode dc) fuel st w2) as Hfinished.
  destruct (pollLoop env fuel (DeviceCode dc) st w2) as [p w3].
  cbn [fst] in Hfinished.
  destruct p as [[acResp|] [y|] | st']; try discriminate.
  intros _.
  destruct (Hfinished _ _ eq_refl)
    as [[H _] | [(n & H & _) | [(n & e & H & _) | (n & res & H & _ & Hans & Hres)]]];
    try discriminate.
  injection H as ->.
  exists (trace w3), res, n, (DeviceCode dc).
  split; [reflexivity | split; assumption].
Qed.

(** The scenario of the specification, to the end. *)
Lemma main_returns_with_token_witness :
  let env := scripted [deviceCodeBody 900 5; errorBody "authorization_pending";
                       errorBody "authorization_pending"] tokenBody 0 in
  exists before res n deviceCode,
    trace (snd (main env 10 genesis))
      = before ++ [EvPrint ("access token: " ++ AccessToken res ++ newline)%string] /\
    AccessToken res <> "" /\
    tokenAnswer (serve env n (tokenRequest deviceCode)) = (Some res, None, None).
Proof.
  intros env. apply (main_returns_with_token env 10 genesis).
  vm_compute. reflexivity.
Defined.

(** ** An interval that is not positive *)

Lemma spinning_passes (env : Env) (deviceCode : string) (fuel : nat) :
  forall (st : PollState) (w : World),
  (forall i, lag env i = 0%N) ->
  (forall n, answersError env n "authorization_pending") ->
  interval st <= 0 ->
  clock w <= expiresAt st ->
  fst (pollLoop env fuel deviceCode st w) = Running st /\
  clock (snd (pollLoop env fuel deviceCode st w)) = clock w /\
  requests (trace (snd (pollLoop env fuel deviceCode st w)))
    = (requests (trace w) + fuel)%nat.
Proof.
  induction fuel as [|fuel IH]; intros st w Hlag Hans Hd Hclock.
  - cbn [pollLoop ret fst snd]. repeat split. lia.
  - assert (Hwake : wakeUp env (interval st) w = clock w).
    { unfold wakeUp. rewrite Hlag. lia. }
    rewrite pollLoop_S_posted by lia.
    destruct (Hans (requests (trace w)) (tokenRequest deviceCode)) as (e & -> & He).
    rewrite (dispatch_pending st e He).
    assert (Hpassed : clock (passed env deviceCode st w) = clock w).
    { unfold passed. cbn [clock]. rewrite Hwake, Hlag. lia. }
    destruct (IH st (passed env deviceCode st w) Hlag Hans Hd) as (Hres & Hc & Hreq).
    + lia.
    + rewrite Hres, Hc, Hreq, requests_passed, Hpassed. repeat split. lia.
Qed.

(** X11.  An interval that is not positive does not slow the poller down.
    [time.Sleep] returns at once for it; so when nothing takes any time and
    the server keeps answering [authorization_pending], a poller called
    within the deadline with an interval of zero or less posts one request
    per pass at the very instant it was called, and is still running after
    any number of passes. *)
Theorem nonpositive_interval_spins (env : Env) (fuel : nat) (deviceCode : string)
    (delay : Duration) (deadline : Time) (w : World) :
  (forall i, lag env i = 0%N) ->
  (forall n, answersError env n "authorization_pending") ->
  delay <= 0 ->
  clock w <= deadline ->
  fst (pollAccessToken env fuel deviceCode delay deadline w)
    = Running (mkPollState delay deadline) /\
  clock (snd (pollAccessToken env fuel deviceCode delay deadline w)) = clock w /\
  requests (trace (snd (pollAccessToken env fuel deviceCode delay deadline w)))
    = (requests (trace w) + fuel)%nat.
Proof.
  intros Hlag Hans Hd Hclock. unfold pollAccessToken.
  now apply spinning_passes.
Qed.

(** The interval [run] makes of [interval: -1] in the device-code
    response. *)
Lemma nonpositive_interval_spins_witness :
  let env := scripted [] (errorBody "authorization_pending") 0 in
  fst (pollAccessToken env 1000 "D" (mul64 (add64 (-1) 1) Second) (900 * Second) genesis)
    = Running (mkPollState 0 (900 * Second)) /\
  clock (snd (pollAccessToken env 1000 "D" (mul64 (add64 (-1) 1) Second)
                (900 * Second) genesis)) = 0 /\
  requests (trace (snd (pollAccessToken env 1000 "D" (mul64 (add64 (-1) 1) Second)
                          (900 * Second) genesis))) = 1000%nat.
Proof.
  intros env.
  apply (nonpositive_interval_spins env 1000 "D" (mul64 (add64 (-1) 1) Second)
           (900 * Second) genesis).
  - reflexivity.
  - intros n req. exists (mkAccessTokenErrorResponse "authorization_pending" "" "").
    destruct n; split; reflexivity.
  - vm_compute. discriminate.
  - vm_compute. discriminate.
Defined.

(** ** The members of the bodies *)

(** X12.  The grant has the values of the answer.  When the answer to
    the device-code request is a JSON object with the members [device_code],
    [user_code], [verification_uri] (strings), [expires_in] and [interval]
    (integers that fit an [int]), [postDeviceCode] returns a grant with these
    values, each in its own field, and no error. *)
Theorem device_code_grant_decoded (env : Env) (w : World) (dc : deviceCodeResponse) :
  in_int64 (ExpiresIn dc) = true ->
  in_int64 (Interval dc) = true ->
  serve env (requests (trace w)) deviceCodeRequest
    = inr (json.Doc (json.Object
             [("device_code", json.String (DeviceCode dc));
              ("user_code", json.String (UserCode dc));
              ("verification_uri", json.String (VerificationURI dc));
              ("expires_in", json.Number (json.Integer (ExpiresIn dc)));
              ("interval", json.Number (json.Integer (Interval dc)))])) ->
  fst (postDeviceCode env w) = (Some dc, None).
Proof.
  intros Hexpires Hinterval Hserve.
  rewrite (postDeviceCode_eq env w _ Hserve).
  destruct dc as [device expires every user uri]. cbn [ExpiresIn Interval] in *.
  cbv -[in_int64]. rewrite Hexpires. cbv -[in_int64]. rewrite Hinterval. reflexivity.
Qed.

Lemma device_code_grant_decoded_witness :
  fst (postDeviceCode (scripted [deviceCodeBody 900 5] tokenBody 0) genesis)
    = (Some (mkDeviceCodeResponse "D" 900 5 "ABCD-1234" "https://x/device"), None).
Proof.
  apply (device_code_grant_decoded (scripted [deviceCodeBody 900 5] tokenBody 0) genesis
           (mkDeviceCodeResponse "D" 900 5 "ABCD-1234" "https://x/device"));
    reflexivity.
Defined.

(** X13.  The payloads have the values of the answer.  For an answer
    [{access_token, token_type, scope}] of strings with a non-empty access
    token, [postAccessToken] returns the response with these three values; for
    an answer [{error, error_description, error_uri}] of strings with a
    non-empty code, it returns the error payload with these three values. *)
Theorem token_payloads_decoded (token type scopes code description uri : string) :
  token <> "" ->
  code <> "" ->
  decodeAccessToken
    (stringObject [("access_token", token); ("token_type", type); ("scope", scopes)])
    = (Some (mkAccessTokenResponse token type scopes), None, None) /\
  decodeAccessToken
    (stringObject [("error", code); ("error_description", description); ("error_uri", uri)])
    = (None, Some (mkAccessTokenErrorResponse code description uri), None).
Proof.
  intros Htoken Hcode. apply String.eqb_neq in Htoken, Hcode.
  unfold decodeAccessToken. split.
  - replace (json.Unmarshal accessTokenFields _ zeroAccessTokenResponse)
      with (mkAccessTokenResponse token type scopes, @None error) by reflexivity.
    cbn [AccessToken andb]. now rewrite Htoken.
  - replace (json.Unmarshal accessTokenFields _ zeroAccessTokenResponse)
      with (zeroAccessTokenResponse, @None error) by reflexivity.
    replace (json.Unmarshal accessTokenErrorFields _ zeroAccessTokenErrorResponse)
      with (mkAccessTokenErrorResponse code description uri, @None error) by reflexivity.
    cbn [AccessToken Error zeroAccessTokenResponse andb negb String.eqb]. now rewrite Hcode.
Qed.

Lemma token_payloads_decoded_witness :
  decodeAccessToken tokenBody
    = (Some (mkAccessTokenResponse "tok123" "bearer" ""), None, None) /\
  decodeAccessToken
    (stringObject [("error", "access_denied"); ("error_description", "denied");
                   ("error_uri", "https://docs.github.com")])
    = (None, Some (mkAccessTokenErrorResponse "access_denied" "denied"
                     "https://docs.github.com"), None).
Proof.
  apply (token_payloads_decoded "tok123" "bearer" "" "access_denied" "denied"
           "https://docs.github.com"); discriminate.
Defined.

(** ** How many requests *)

Lemma pollLoop_request_bound (env : Env) (deviceCode : string) (d : Duration)
    (start : Time) (fuel : nat) :
  forall (st : PollState) (w : World),
  0 < d <= interval st ->
  interval st <= d + (clock w - start) ->
  d + (expiresAt st - start) <= max_int64 ->
  let k := Z.of_nat (requests (eventsSince w (snd (pollLoop env fuel deviceCode st w)))) in
  k = 0 \/ clock w + k * d <= expiresAt st.
Proof.
  induction fuel as [|fuel IH]; intros st w Hd Hi Hmax; cbv zeta.
  - cbn [pollLoop ret snd]. unfold eventsSince. rewrite skipn_all. now left.
  - rewrite pollLoop_S_events. cbv zeta.
    destruct (After _ _) eqn:Hafter; [now left|].
    apply Z.ltb_ge in Hafter. right.
    rewrite requests_app. cbn [requests filter isPost List.length].
    pose proof (clock_passed env deviceCode st w) as Hclock.
    unfold wakeUp in Hafter, Hclock.
    destruct (dispatch st _) as [st'|a x] eqn:Hdisp.
    + apply dispatch_Continue in Hdisp as [Hx Hst'].
      assert (Hdouble : mul64 (interval st) 2 = interval st * 2).
      { apply wrap64_small. unfold min_int64. lia. }
      rewrite Hdouble in Hst'.
      destruct (IH st' (passed env deviceCode st w)) as [Hk | Hk];
        rewrite ?Hx in *; lia.
    + cbn [requests filter List.length]. lia.
Qed.

(** X14.  No more requests than intervals before the deadline.  When the
    interval is positive and [interval + (expiresAt - now)] fits an [int64],
    a call of [pollAccessToken] that makes [k] token requests, however long
    it runs, has [k] intervals between the call and the deadline:
    [now + k * interval <= expiresAt], unless it makes none. *)
Theorem requests_fit_the_deadline (env : Env) (fuel : nat) (deviceCode : string)
    (delay : Duration) (deadline : Time) (w : World) :
  0 < delay ->
  delay + (deadline - clock w) <= max_int64 ->
  let k := Z.of_nat (requests (eventsSince w
             (snd (pollAccessToken env fuel deviceCode delay deadline w)))) in
  k = 0 \/ clock w + k * delay <= deadline.
Proof.
  intros Hpos Hmax. unfold pollAccessToken.
  apply (pollLoop_request_bound env deviceCode delay (clock w)); cbn [interval expiresAt]; lia.
Qed.

(** Twenty seconds, every 6 seconds: three requests. *)
Lemma requests_fit_the_deadline_witness :
  let env := scripted [] (errorBody "authorization_pending") 0 in
  requests (eventsSince genesis
              (snd (pollAccessToken env 10 "D" (6 * Second) (20 * Second) genesis)))
    = 3%nat /\
  0 + 3 * (6 * Second) <= 20 * Second.
Proof.
  intros env.
  assert (Hk : requests (eventsSince genesis
                 (snd (pollAccessToken env 10 "D" (6 * Second) (20 * Second) genesis)))
               = 3%nat) by (vm_compute; reflexivity).
  split; [exact Hk|].
  destruct (requests_fit_the_deadline env 10 "D" (6 * Second) (20 * Second) genesis)
    as [H | H].
  - vm_compute. reflexivity.
  - vm_compute. discriminate.
  - rewrite Hk in H. discriminate.
  - rewrite Hk in H. exact H.
Defined.
